(** * Animal Breed Identifier: persistence, session and adapter contracts

    A shallow embedding of the browser application's storage wrapper
    ([services/db.ts]), its session and view controller ([App.tsx]), the
    login form handler ([components/Login.tsx]), the scan mutations of the
    dashboard ([components/Dashboard.tsx]) and the speech adapter
    ([services/geminiService.ts]), together with the properties the
    specification states about them.

    Conventions.  A JavaScript string is a [string]; a JavaScript number is
    an IEEE binary64 [float]; an optional field [f?: T] is an [option T];
    [T | null] is an [option T] as well.  A promise is a function of the
    database contents that settles to a value or to an error.  What a
    [Date] makes of a string outside the shape the application writes is
    left to the engine, a parameter of everything that reads a
    timestamp. *)

From Stdlib Require Import String Ascii ZArith List Bool Lia.
From Stdlib Require Import Permutation Sorted OrderedTypeEx.
From Stdlib Require Import Floats.PrimFloat.
From Stdlib Require Import Uint63.
From Stdlib Require Strings.Byte.
Import ListNotations.

Open Scope string_scope.
Open Scope list_scope.

(* ------------------------------------------------------------------ *)
(** * types.ts *)

Module Types.

Inductive UserRole := USER | ADMIN.

Definition UserRole_eqb (a b : UserRole) : bool :=
  match a, b with
  | USER, USER | ADMIN, ADMIN => true
  | _, _ => false
  end.

Definition number := float.

Record User := mkUser {
  id : string;
  name : string;
  email : string;
  role : UserRole;
  createdAt : string
}.

Inductive Severity := Low | Medium | High.

(** [hi_description] is the field [description] of [HealthIssue] and
    [br_id] the field [id] of [BreedResult]; the plain names are taken by
    [BreedResult] and [User]. *)
Record HealthIssue := mkHealthIssue {
  issue : string;
  severity : Severity;
  hi_description : string;
  recommendedAction : string
}.

Record HealthAnalysisResponse := mkHealthAnalysis {
  potentialIssues : list HealthIssue;
  summary : string;
  isHealthy : bool
}.

Record BreedResult := mkBreedResult {
  br_id : string;
  userId : string;
  imageUrl : string;
  animalType : string;
  breedName : string;
  confidence : number;
  description : string;
  similarBreeds : list string;
  timestamp : string;
  healthAnalysis : option HealthAnalysisResponse;
  price : number;
  uses : list string;
  lifeExpectancy : string;
  dietRoutine : string;
  exercisePlan : string;
  isPurchased : option bool
}.

(** Object spread with one overriding property, as written in the
    dashboard: [{ ...r, healthAnalysis: a }] and
    [{ ...r, isPurchased: b }]. *)
Definition spread_healthAnalysis (r : BreedResult)
    (a : HealthAnalysisResponse) : BreedResult :=
  mkBreedResult (br_id r) (userId r) (imageUrl r) (animalType r)
    (breedName r) (confidence r) (description r) (similarBreeds r)
    (timestamp r) (Some a) (price r) (uses r) (lifeExpectancy r)
    (dietRoutine r) (exercisePlan r) (isPurchased r).

Definition spread_isPurchased (r : BreedResult) (b : bool) : BreedResult :=
  mkBreedResult (br_id r) (userId r) (imageUrl r) (animalType r)
    (breedName r) (confidence r) (description r) (similarBreeds r)
    (timestamp r) (healthAnalysis r) (price r) (uses r) (lifeExpectancy r)
    (dietRoutine r) (exercisePlan r) (Some b).

(** The classification the adapter returns, [JSON.parse] of the model's
    answer, read through the keys of a scan record: the ten keys the
    response schema requires and, where the answer carries them, the two
    optional keys of a scan.  [p_] marks the fields, whose plain names are
    those of [BreedResult]. *)
Record PredictionResponse := mkPrediction {
  p_animalType : string;
  p_breedName : string;
  p_confidence : number;
  p_description : string;
  p_similarBreeds : list string;
  p_price : number;
  p_uses : list string;
  p_lifeExpectancy : string;
  p_dietRoutine : string;
  p_exercisePlan : string;
  p_healthAnalysis : option HealthAnalysisResponse;
  p_isPurchased : option bool
}.

End Types.
Export Types.

(* ------------------------------------------------------------------ *)
(** * The JavaScript built-ins the code relies on *)

Module Js.

(** [ToBoolean] on a string: only the empty string is falsy. *)
Definition truthy (s : string) : bool := negb (String.eqb s "").

(** [ToBoolean] on [string | null]. *)
Definition truthy_opt (o : option string) : bool :=
  match o with
  | Some s => truthy s
  | None => false
  end.

(** Option sequencing for the date reader below. *)
Definition obind {A B} (o : option A) (k : A -> option B) : option B :=
  match o with
  | Some a => k a
  | None => None
  end.

Notation "x <-? o ;; k" := (obind o (fun x => k))
  (at level 61, o at next level, right associativity).
Notation "' p <-? o ;; k" := (obind o (fun p => k))
  (at level 61, p pattern, o at next level, right associativity).

Definition digit (c : ascii) : option Z :=
  let n := Z.of_N (N_of_ascii c) in
  if ((48 <=? n) && (n <=? 57))%Z then Some (n - 48)%Z else None.

(** Reads exactly [n] decimal digits and returns their value and the
    rest of the input. *)
Fixpoint digits (n : nat) (acc : Z) (s : string) : option (Z * string) :=
  match n with
  | O => Some (acc, s)
  | S n' =>
      match s with
      | EmptyString => None
      | String c s' =>
          d <-? digit c ;; digits n' (10 * acc + d)%Z s'
      end
  end.

Definition expect (c : ascii) (s : string) : option string :=
  match s with
  | String c' s' => if Ascii.eqb c c' then Some s' else None
  | EmptyString => None
  end.

(** ECMAScript's day arithmetic (DayFromYear, InLeapYear, MakeDay,
    MakeTime, MakeDate). *)
Definition DayFromYear (y : Z) : Z :=
  (365 * (y - 1970) + (y - 1969) / 4 - (y - 1901) / 100
     + (y - 1601) / 400)%Z.

Definition InLeapYear (y : Z) : bool :=
  (((y mod 4 =? 0) && negb (y mod 100 =? 0)) || (y mod 400 =? 0))%Z.

Definition DaysInMonth (y m : Z) : Z :=
  (if m =? 2 then (if InLeapYear y then 29 else 28)
   else if (m =? 4) || (m =? 6) || (m =? 9) || (m =? 11) then 30
   else 31)%Z.

Fixpoint DaysBeforeMonth (y : Z) (m : nat) : Z :=
  match m with
  | O => 0%Z
  | S m' => (DaysBeforeMonth y m' + DaysInMonth y (Z.of_nat m))%Z
  end.

Definition MakeDay (y m d : Z) : Z :=
  (DayFromYear y + DaysBeforeMonth y (Z.to_nat (m - 1)) + (d - 1))%Z.

Definition MakeTime (h mi s ms : Z) : Z :=
  (h * 3600000 + mi * 60000 + s * 1000 + ms)%Z.

Definition MakeDate (day time : Z) : Z := (day * 86400000 + time)%Z.

Definition in_range (lo x hi : Z) : bool := ((lo <=? x) && (x <=? hi))%Z.

(** The time value of a string in the shape that
    [Date.prototype.toISOString] writes, [YYYY-MM-DDTHH:mm:ss.sssZ], the
    one shape in which this application itself writes timestamps.  The
    language fixes the time value of such a string. *)
Definition standard_getTime (s : string) : option Z :=
  '(y, s)  <-? digits 4 0 s ;; s <-? expect "-" s ;;
  '(m, s)  <-? digits 2 0 s ;; s <-? expect "-" s ;;
  '(d, s)  <-? digits 2 0 s ;; s <-? expect "T" s ;;
  '(h, s)  <-? digits 2 0 s ;; s <-? expect ":" s ;;
  '(mi, s) <-? digits 2 0 s ;; s <-? expect ":" s ;;
  '(sc, s) <-? digits 2 0 s ;; s <-? expect "." s ;;
  '(ms, s) <-? digits 3 0 s ;; s <-? expect "Z" s ;;
  if String.eqb s ""
     && in_range 1 m 12 && in_range 1 d (DaysInMonth y m)
     && in_range 0 h 23 && in_range 0 mi 59 && in_range 0 sc 59
  then Some (MakeDate (MakeDay y m d) (MakeTime h mi sc ms))
  else None.

Fixpoint has_digit (s : string) : bool :=
  match s with
  | EmptyString => false
  | String c s' =>
      match digit c with
      | Some _ => true
      | None => has_digit s'
      end
  end.

(** The JavaScript engine the application runs on.  Which strings a
    [Date] reads besides the shape above, and as what, is the engine's
    affair (other standard forms, offsets, and whatever its own fallback
    reader accepts): [Date_parse_other] is its answer for them, [None]
    standing for NaN.  Every property below is stated for an arbitrary
    engine. *)
Class Engine := { Date_parse_other : string -> option Z }.

(** [new Date(s).getTime()] for a string [s]; [None] stands for NaN, the
    time value of an invalid date.  A string in the standard shape has
    the time value the language fixes; a string without any digit, the
    empty string among them, is a date for no engine; any other string
    is read by the engine. *)
Definition Date_getTime {E : Engine} (s : string) : option Z :=
  match standard_getTime s with
  | Some t => Some t
  | None => if has_digit s then Date_parse_other s else None
  end.

(** An engine that reads no string outside the standard shape; it
    serves to run the definitions on sample data. *)
Definition standard_only : Engine := {| Date_parse_other := fun _ => None |}.

(** [SortCompare] of [Array.prototype.sort]: the comparator's result
    is converted to a number and a NaN counts as [+0]. *)
Definition SortCompare {A} (comparefn : A -> A -> option Z) (x y : A) : Z :=
  match comparefn x y with
  | Some v => v
  | None => 0%Z
  end.

(** [Array.prototype.sort].  The language fixes the result when the
    comparator is consistent: the stable ordering of the elements.  A
    stable insertion sort computes it.  For an inconsistent comparator
    (one that answers NaN for some pairs only) the language leaves the
    order to the engine and only promises a permutation. *)
Fixpoint sort_insert {A} (comparefn : A -> A -> option Z) (x : A)
    (l : list A) : list A :=
  match l with
  | [] => [x]
  | y :: l' =>
      if (0 <? SortCompare comparefn x y)%Z
      then y :: sort_insert comparefn x l'
      else x :: l
  end.

Fixpoint Array_sort {A} (comparefn : A -> A -> option Z) (l : list A)
    : list A :=
  match l with
  | [] => []
  | x :: l' => sort_insert comparefn x (Array_sort comparefn l')
  end.

(** [Array.prototype.pop]: the last element, undefined on an empty
    array. *)
Fixpoint Array_pop {A} (l : list A) : option A :=
  match l with
  | [] => None
  | [x] => Some x
  | _ :: l' => Array_pop l'
  end.

(** Subtraction of two numbers that may be NaN. *)
Definition Number_sub (a b : option Z) : option Z :=
  match a, b with
  | Some x, Some y => Some (x - y)%Z
  | _, _ => None
  end.

(** [a >= b] on numbers that may be NaN: false as soon as one is. *)
Definition Number_ge (a b : option Z) : bool :=
  match a, b with
  | Some x, Some y => (y <=? x)%Z
  | _, _ => false
  end.

End Js.

(* ------------------------------------------------------------------ *)
(** * The embedded object store (IndexedDB) as the wrapper uses it *)

Module IndexedDB.

Inductive DOMException := ConstraintError.

(** How a request, and the promise wrapped around it, ends. *)
Inductive Settled (A : Type) :=
| Resolved (a : A)
| Rejected (e : DOMException).
Arguments Resolved {A} a.
Arguments Rejected {A} e.

Section ObjectStore.
Context {A : Type}.
(** The store's key path: the field holding the primary key. *)
Variable keyPath : A -> string.

(** Records are kept in ascending key order, the order in which
    [getAll] and every index hand them out.  Keys are compared as
    strings, character by character. *)
Fixpoint put (r : A) (l : list A) : list A :=
  match l with
  | [] => [r]
  | x :: l' =>
      match String.compare (keyPath r) (keyPath x) with
      | Lt => r :: l
      | Eq => r :: l'
      | Gt => x :: put r l'
      end
  end.

Definition get (k : string) (l : list A) : option A :=
  find (fun x => String.eqb (keyPath x) k) l.

Definition delete (k : string) (l : list A) : list A :=
  filter (fun x => negb (String.eqb (keyPath x) k)) l.

Definition getAll (l : list A) : list A := l.

(** Secondary indexes on a string field [ix]. *)
Definition index_get (ix : A -> string) (v : string) (l : list A)
    : option A :=
  find (fun x => String.eqb (ix x) v) l.

Definition index_getAll (ix : A -> string) (v : string) (l : list A)
    : list A :=
  filter (fun x => String.eqb (ix x) v) l.

(** A unique index refuses a record whose indexed value is already
    held by a record with another primary key. *)
Definition violates_unique (ix : A -> string) (r : A) (l : list A)
    : bool :=
  existsb (fun x => String.eqb (ix x) (ix r)
                    && negb (String.eqb (keyPath x) (keyPath r))) l.

(** [put] on a store that carries a unique index on [ix]. *)
Definition put_unique (ix : A -> string) (r : A) (l : list A)
    : Settled (list A) :=
  if violates_unique ix r l then Rejected ConstraintError
  else Resolved (put r l).
End ObjectStore.

End IndexedDB.
Export IndexedDB.

(* ------------------------------------------------------------------ *)
(** * services/db.ts *)

Module AnimalDB.

(** Contents of the database [AnimalBreedFinderDB], version 1: the
    object store [users] (key path [id], unique index on [email]) and
    the object store [scans] (key path [id], indexes on [userId] and
    [timestamp]). *)
Record IDBDatabase := mkDB {
  users : list User;
  scans : list BreedResult
}.

(** What [onupgradeneeded] leaves behind for an origin that had no
    database: both stores, empty. *)
Definition onupgradeneeded : IDBDatabase := mkDB [] [].

(** [indexedDB.open(DB_NAME, DB_VERSION)] on the origin's persisted
    state. *)
Definition open (disk : option IDBDatabase) : IDBDatabase :=
  match disk with
  | Some db => db
  | None => onupgradeneeded
  end.

(** A promise over the database contents.  Every operation of the
    wrapper is one transaction; a rejected request aborts it and
    leaves the contents as they were. *)
Definition Promise (A : Type) : Type :=
  IDBDatabase -> Settled A * IDBDatabase.

Definition ret {A} (a : A) : Promise A := fun db => (Resolved a, db).

Definition await {A B} (p : Promise A) (k : A -> Promise B) : Promise B :=
  fun db =>
    match p db with
    | (Resolved a, db') => k a db'
    | (Rejected e, db') => (Rejected e, db')
    end.

(** [try { p } catch (err) { h }]. *)
Definition try_catch {A} (p : Promise A) (h : DOMException -> Promise A)
    : Promise A :=
  fun db =>
    match p db with
    | (Resolved a, db') => (Resolved a, db')
    | (Rejected e, db') => h e db'
    end.

Notation "x <- p ;; k" := (await p (fun x => k))
  (at level 61, p at next level, right associativity).

(** [init] hands out the opened handle; the schema is in place. *)
Definition init : Promise unit := ret tt.

Definition saveUser (user : User) : Promise unit :=
  _ <- init ;;
  fun db =>
    match put_unique id email user (users db) with
    | Resolved us => (Resolved tt, mkDB us (scans db))
    | Rejected e => (Rejected e, db)
    end.

Definition getUser (k : string) : Promise (option User) :=
  _ <- init ;;
  fun db => (Resolved (get id k (users db)), db).

Definition getUserByEmail (e : string) : Promise (option User) :=
  _ <- init ;;
  fun db => (Resolved (index_get email e (users db)), db).

Definition getAllUsers : Promise (list User) :=
  _ <- init ;;
  fun db => (Resolved (getAll (users db)), db).

Definition saveScan (scan : BreedResult) : Promise unit :=
  _ <- init ;;
  fun db => (Resolved tt, mkDB (users db) (put br_id scan (scans db))).

(** The comparator of both listings:
    [(a, b) => new Date(b.timestamp).getTime()
               - new Date(a.timestamp).getTime()]. *)
Definition newest_first {E : Js.Engine} (a b : BreedResult) : option Z :=
  Js.Number_sub (Js.Date_getTime (timestamp b))
                (Js.Date_getTime (timestamp a)).

Definition getUserScans {E : Js.Engine} (u : string)
    : Promise (list BreedResult) :=
  _ <- init ;;
  fun db =>
    (Resolved (Js.Array_sort newest_first
                 (index_getAll userId u (scans db))), db).

Definition getAllScans {E : Js.Engine} : Promise (list BreedResult) :=
  _ <- init ;;
  fun db =>
    (Resolved (Js.Array_sort newest_first (getAll (scans db))), db).

Definition deleteScan (k : string) : Promise unit :=
  _ <- init ;;
  fun db => (Resolved tt, mkDB (users db) (delete br_id k (scans db))).

Definition adminEmail : string := "admin@breedfinder.com".

(** [now] is the reading of the clock, [new Date().toISOString()]. *)
Definition seedAdmin (now : string) : Promise unit :=
  existing <- getUserByEmail adminEmail ;;
  match existing with
  | None =>
      saveUser (mkUser "admin-1" "System Administrator" adminEmail
                  ADMIN now)
  | Some _ => ret tt
  end.

End AnimalDB.
Export AnimalDB.

(* ------------------------------------------------------------------ *)
(** * components/Login.tsx *)

Module Login.

(** What a submission of the form ends in: [onLogin(user)] or
    [setError(message)]. *)
Inductive Outcome :=
| onLogin (user : User)
| setError (message : string).

Definition handleSubmit (email password : string) : Promise Outcome :=
  try_catch
    (adminUser <-
       (if String.eqb email "admin@breedfinder.com"
           && String.eqb password "admin123"
        then getUserByEmail "admin@breedfinder.com"
        else ret None) ;;
     match adminUser with
     | Some u => ret (onLogin u)
     | None =>
         foundUser <- getUserByEmail email ;;
         match foundUser with
         | Some u => ret (onLogin u)
         | None =>
             ret (setError
                    "Invalid email or password. Use 'admin@breedfinder.com' / 'admin123' for testing admin.")
         end
     end)
    (fun _ => ret (setError "An error occurred during sign in.")).

End Login.

(* ------------------------------------------------------------------ *)
(** * App.tsx *)

Module App.

Inductive View := landing | login | signup | dashboard | admin.

Record State := mkState {
  currentUser : option User;
  view : View;
  isInitializing : bool
}.

(** The state [useState] starts from. *)
Definition initial : State := mkState None landing true.

(** The screen a role lands on:
    [user.role === UserRole.ADMIN ? 'admin' : 'dashboard']. *)
Definition home (user : User) : View :=
  if UserRole_eqb (role user) ADMIN then admin else dashboard.

(** [initApp], run once by the mount effect.  [storedUserId] is
    [localStorage.getItem('animal_id_uid')]; the promise runs on the
    opened database. *)
Definition restore (now : string) (storedUserId : option string)
    : Promise (option User) :=
  _ <- init ;;
  _ <- seedAdmin now ;;
  match storedUserId with
  | Some uid =>
      if Js.truthy uid then getUser uid else ret None
  | None => ret None
  end.

Definition initApp (now : string) (storedUserId : option string)
    (st : State) : Promise State :=
  await
    (try_catch (restore now storedUserId) (fun _ => ret None))
    (fun user =>
       match user with
       | Some u => ret (mkState (Some u) (home u) false)
       | None => ret (mkState (currentUser st) (view st) false)
       end).

(** The persisted pointer slot, [localStorage['animal_id_uid']]. *)
Definition Slot := option string.

Definition handleLogin (user : User) (st : State) (slot : Slot)
    : State * Slot :=
  (mkState (Some user) (home user) (isInitializing st), Some (id user)).

Definition handleLogout (st : State) (slot : Slot) : State * Slot :=
  (mkState None landing (isInitializing st), None).

Definition setView (v : View) (st : State) : State :=
  mkState (currentUser st) v (isInitializing st).

(** What the component tree shows.  [Dashboard] receives
    [currentUser!], which is whatever [currentUser] holds. *)
Inductive Screen :=
| Spinner
| LandingPage
| LoginForm
| SignupForm
| Dashboard (user : option User)
| AdminDashboard (user : User).

Definition renderContent (st : State) : Screen :=
  match view st with
  | landing => LandingPage
  | login => LoginForm
  | signup => SignupForm
  | dashboard =>
      match currentUser st with
      | Some u => Dashboard (Some u)
      | None => LoginForm
      end
  | admin =>
      match currentUser st with
      | Some u =>
          if UserRole_eqb (role u) ADMIN then AdminDashboard u
          else Dashboard (Some u)
      | None => Dashboard None
      end
  end.

Definition render (st : State) : Screen :=
  if isInitializing st then Spinner else renderContent st.

(** The transitions of the controller.  The mount effect is taken from
    any state, which covers an effect that is run more than once.  A
    login or signup completes asynchronously, so [handleLogin] may arrive
    on whatever screen is shown by then.  Every other transition is a
    handler wired to a control of the screen being shown, so it needs
    that screen. *)
Inductive step : State -> State -> Prop :=
| step_initApp now slot disk st st' db' :
    initApp now slot st (open disk) = (Resolved st', db') ->
    step st st'
| step_login st user slot :
    isInitializing st = false ->
    step st (fst (handleLogin user st slot))
| step_logout st u slot :
    isInitializing st = false -> currentUser st = Some u ->
    step st (fst (handleLogout st slot))
| step_nav_home st :
    isInitializing st = false -> step st (setView landing st)
| step_nav_dashboard st u :
    isInitializing st = false -> currentUser st = Some u ->
    step st (setView (home u) st)
| step_nav_login st :
    isInitializing st = false -> currentUser st = None ->
    step st (setView login st)
| step_nav_signup st :
    isInitializing st = false -> currentUser st = None ->
    step st (setView signup st)
| step_get_started st :
    render st = LandingPage -> step st (setView login st)
| step_switch_to_signup st :
    render st = LoginForm -> step st (setView signup st)
| step_switch_to_login st :
    render st = SignupForm -> step st (setView login st)
| step_back st :
    render st = LoginForm \/ render st = SignupForm ->
    step st (setView landing st).

Inductive reachable : State -> Prop :=
| reachable_initial : reachable initial
| reachable_step st st' : reachable st -> step st st' -> reachable st'.

End App.

(* ------------------------------------------------------------------ *)
(** * services/geminiService.ts *)

Module GeminiService.

(** A call to the hosted model resolves to a value or throws. *)
Inductive ApiResult (A : Type) :=
| ApiOk (a : A)
| ApiError (message : string).
Arguments ApiOk {A} a.
Arguments ApiError {A} message.

(** The part of the response the adapter reads; every level is
    optional, as the optional chaining in the adapter shows. *)
Record Blob := mkBlob {
  data : option string;
  mimeType : option string
}.

Record Part := mkPart {
  inlineData : option Blob;
  text : option string
}.

Record Content := mkContent { parts : option (list Part) }.

Record Candidate := mkCandidate { content : option Content }.

Record GenerateContentResponse := mkResponse {
  candidates : option (list Candidate)
}.

Record SpeechRequest := mkSpeechRequest {
  model : string;
  contents : string;
  responseModalities : list string;
  voiceName : string
}.

Import Js.

(** [response.candidates?.[0]?.content?.parts?.[0]?.inlineData?.data] *)
Definition first_inline_data (response : GenerateContentResponse)
    : option string :=
  cs <-? candidates response ;;
  c <-? hd_error cs ;;
  ct <-? content c ;;
  ps <-? parts ct ;;
  p <-? hd_error ps ;;
  b <-? inlineData p ;;
  data b.

(** [v || ''] *)
Definition or_empty (v : option string) : string :=
  match v with
  | Some s => if truthy s then s else ""
  | None => ""
  end.

Definition generateBreedAudio
    (generateContent : SpeechRequest -> ApiResult GenerateContentResponse)
    (txt : string) : ApiResult string :=
  match generateContent
          (mkSpeechRequest "gemini-2.5-flash-preview-tts" txt ["AUDIO"]
             "Kore") with
  | ApiOk response => ApiOk (or_empty (first_inline_data response))
  | ApiError e => ApiError e
  end.

(** Whether some part of some candidate carries inline data at all. *)
Definition has_inline_data (response : GenerateContentResponse) : bool :=
  match candidates response with
  | Some cs =>
      existsb (fun c =>
                 match content c with
                 | Some ct =>
                     match parts ct with
                     | Some ps =>
                         existsb (fun p =>
                                    match inlineData p with
                                    | Some _ => true
                                    | None => false
                                    end) ps
                     | None => false
                     end
                 | None => false
                 end) cs
  | None => false
  end.

(** [s.split(',')]: the pieces of [s] between its commas. *)
Fixpoint split_comma (s : string) : list string :=
  match s with
  | EmptyString => [EmptyString]
  | String c s' =>
      if Ascii.eqb c ","%char then EmptyString :: split_comma s'
      else
        match split_comma s' with
        | piece :: rest => String c piece :: rest
        | [] => [String c EmptyString]
        end
  end.

(** The image payload both vision calls send:
    [base64Image.split(',')[1] || base64Image]. *)
Definition inline_image_data (base64Image : string) : string :=
  match nth_error (split_comma base64Image) 1 with
  | Some piece => if truthy piece then piece else base64Image
  | None => base64Image
  end.






(** An [Int16Array] over the bytes of a [Uint8Array] that starts its
    buffer, as the one [decodeBase64] makes: two bytes a sample, low byte
    first, a trailing odd byte left out. *)
Definition Int16_of (lo hi : Byte.byte) : Z :=
  let v := (Z.of_N (Byte.to_N lo) + 256 * Z.of_N (Byte.to_N hi))%Z in
  if (v <? 32768)%Z then v else (v - 65536)%Z.

Fixpoint Int16Array_of (bytes : list Byte.byte) : list Z :=
  match bytes with
  | lo :: hi :: rest => Int16_of lo hi :: Int16Array_of rest
  | _ => []
  end.

(** An integer of sixteen bits as a number. *)
Definition Number_of_Int16 (z : Z) : number :=
  if (z <? 0)%Z then PrimFloat.opp (PrimFloat.of_uint63 (Uint63.of_Z (- z)))
  else PrimFloat.of_uint63 (Uint63.of_Z z).

(** [dataInt16[k] / 32768.0]; the quotient is held exactly by the
    [Float32Array] it is stored in. *)
Definition sample_of (z : Z) : number :=
  PrimFloat.div (Number_of_Int16 z) 32768%float.

(** The samples written to one channel:
    [channelData[i] = dataInt16[i * numChannels + channel] / 32768.0]
    for [i] below the frame count. *)
Definition channelData_of (dataInt16 : list Z) (numChannels frameCount : nat)
    (channel : nat) : list number :=
  map (fun i => sample_of (nth (i * numChannels + channel) dataInt16 0%Z))
      (seq 0 frameCount).

(** [decodeAudioData(data, ctx, sampleRate, numChannels)] at the default
    sample rate, the only one the dashboard uses: the channels of the
    buffer it returns.  [createBuffer] refuses a channel count or
    a length of zero, and the count of channels an engine has to accept
    ends at 32; [None] stands for its exception. *)
Definition decodeAudioData (data : list Byte.byte) (numChannels : nat)
    : option (list (list number)) :=
  let dataInt16 := Int16Array_of data in
  let frameCount := (List.length dataInt16 / numChannels)%nat in
  if ((1 <=? numChannels) && (numChannels <=? 32) && (1 <=? frameCount))%nat
  then Some (map (channelData_of dataInt16 numChannels frameCount)
               (seq 0 numChannels))
  else None.

(** What [getBreedFacts] returns: the text and the grounding sources. *)
Record Web := mkWeb { uri : option string; title : option string }.

Record BreedFacts := mkFacts {
  facts_text : option string;
  sources : list Web
}.

End GeminiService.

(* ------------------------------------------------------------------ *)
(** * components/Dashboard.tsx *)

Module Dashboard.

Import GeminiService.

(** The part of the component's state the scan mutations touch. *)
Record State := mkState {
  selectedImage : option string;
  currentResult : option BreedResult;
  healthAnalysis : option HealthAnalysisResponse;
  error : option string;
  shoppingCart : list BreedResult;
  isAnalyzingHealth : bool
}.

Definition saveScanToDB (result : BreedResult) : Promise unit :=
  try_catch (saveScan result) (fun _ => ret tt).

(** [handleHealthCheck].  [detectAnimalDiseases] is the adapter's
    health-scan call, given the image and the animal type. *)
Definition handleHealthCheck
    (detectAnimalDiseases :
       string -> string -> ApiResult HealthAnalysisResponse)
    (st : State) : Promise State :=
  match selectedImage st, currentResult st with
  | Some img, Some cur =>
      if Js.truthy img then
        match detectAnimalDiseases img (animalType cur) with
        | ApiOk analysis =>
            let updatedResult := spread_healthAnalysis cur analysis in
            _ <- saveScanToDB updatedResult ;;
            ret (mkState (selectedImage st) (Some updatedResult)
                   (Some analysis) (error st) (shoppingCart st) false)
        | ApiError _ =>
            ret (mkState (selectedImage st) (currentResult st)
                   (healthAnalysis st) (Some "Health analysis failed.")
                   (shoppingCart st) false)
        end
      else ret st
  | _, _ => ret st
  end.

Definition handlePurchase (st : State) : Promise State :=
  match currentResult st with
  | Some cur =>
      let purchased := spread_isPurchased cur true in
      _ <- saveScanToDB purchased ;;
      ret (mkState (selectedImage st) (Some purchased)
             (healthAnalysis st) (error st)
             (purchased :: shoppingCart st) (isAnalyzingHealth st))
  | None => ret st
  end.

(** The state [handleIdentify] and [resetAll] write besides. *)
Record View := mkView {
  scan : State;
  isUploading : bool;
  funFacts : option BreedFacts;
  similarBreedImages : list (string * string)
}.

(** [handleIdentify] for the signed-in [user].  [identifyBreed] is the
    adapter's classification call, [rnd] the value of
    [Math.random().toString(36).substr(2, 9)] and [now] the reading of the
    clock.  The new record is the spread of the answer with [id],
    [userId], [imageUrl] and [timestamp] set after it. *)
Definition handleIdentify (user : User)
    (identifyBreed : string -> ApiResult PredictionResponse)
    (rnd now : string) (v : View) : Promise View :=
  match selectedImage (scan v) with
  | Some img =>
      if Js.truthy img then
        match identifyBreed img with
        | ApiOk prediction =>
            let newResult :=
              mkBreedResult rnd (id user) img (p_animalType prediction)
                (p_breedName prediction) (p_confidence prediction)
                (p_description prediction) (p_similarBreeds prediction)
                now (p_healthAnalysis prediction) (p_price prediction)
                (p_uses prediction) (p_lifeExpectancy prediction)
                (p_dietRoutine prediction) (p_exercisePlan prediction)
                (p_isPurchased prediction) in
            _ <- saveScanToDB newResult ;;
            ret (mkView
                   (mkState (Some img) (Some newResult) None None
                      (shoppingCart (scan v)) (isAnalyzingHealth (scan v)))
                   false None [])
        | ApiError message =>
            ret (mkView
                   (mkState (Some img) None None
                      (Some (if Js.truthy message then message
                             else "Identification failed."))
                      (shoppingCart (scan v)) (isAnalyzingHealth (scan v)))
                   false None [])
        end
      else ret v
  | None => ret v
  end.

Definition resetAll (v : View) : View :=
  mkView
    (mkState None None None None (shoppingCart (scan v))
       (isAnalyzingHealth (scan v)))
    (isUploading v) None [].

(** [s => s.isPurchased] as a filter: an absent flag is falsy. *)
Definition purchased (s : BreedResult) : bool :=
  match isPurchased s with
  | Some b => b
  | None => false
  end.

(** [loadPurchases], the effect run when the user changes. *)
Definition loadPurchases {E : Js.Engine} (user : User) (st : State)
    : Promise State :=
  scans <- getUserScans (id user) ;;
  ret (mkState (selectedImage st) (currentResult st) (healthAnalysis st)
         (error st) (filter purchased scans) (isAnalyzingHealth st)).

(** [handleReturn]; [confirmed] is the answer to [window.confirm]. *)
Definition handleReturn (confirmed : bool) (k : string) (st : State)
    : Promise State :=
  if confirmed then
    _ <- deleteScan k ;;
    ret (mkState (selectedImage st)
           (match currentResult st with
            | Some cur =>
                if String.eqb (br_id cur) k
                then Some (spread_isPurchased cur false)
                else Some cur
            | None => None
            end)
           (healthAnalysis st) (error st)
           (filter (fun s => negb (String.eqb (br_id s) k))
              (shoppingCart st))
           (isAnalyzingHealth st))
  else ret st.

End Dashboard.

(* ------------------------------------------------------------------ *)
(** * components/Signup.tsx *)

Module Signup.

Inductive Outcome :=
| onSignup (user : User)
| setError (message : string).

(** The rest of the handler once the lookup by email has settled. *)
Definition resume (existing : option User) (newUser : User)
    : Promise Outcome :=
  try_catch
    (match existing with
     | Some _ => ret (setError "An account with this email already exists.")
     | None => _ <- saveUser newUser ;; ret (onSignup newUser)
     end)
    (fun _ => ret (setError "An error occurred during signup.")).

(** [handleSubmit] on the form's fields.  [rnd] is the value of
    [Math.random().toString(36).substr(2, 9)] and [now] the reading of the
    clock; the length of the password is its number of characters. *)
Definition handleSubmit (name email password rnd now : string)
    : Promise Outcome :=
  if (String.length password <? 6)%nat
  then ret (setError "Password must be at least 6 characters long.")
  else
    try_catch
      (existing <- getUserByEmail email ;;
       match existing with
       | Some _ =>
           ret (setError "An account with this email already exists.")
       | None =>
           _ <- saveUser (mkUser rnd name email USER now) ;;
           ret (onSignup (mkUser rnd name email USER now))
       end)
      (fun _ => ret (setError "An error occurred during signup.")).

(** Two submissions whose lookups both settle before either of them
    saves: the handler awaits between the two transactions. *)
Definition raced (u1 u2 : User) : Promise (Outcome * Outcome) :=
  e1 <- getUserByEmail (email u1) ;;
  e2 <- getUserByEmail (email u2) ;;
  o1 <- resume e1 u1 ;;
  o2 <- resume e2 u2 ;;
  ret (o1, o2).

End Signup.

(* ------------------------------------------------------------------ *)
(** * components/AdminDashboard.tsx *)

Module AdminDashboard.

Record State := mkState {
  users : list User;
  allUploads : list BreedResult;
  isLoading : bool
}.

(** [fetchAdminData], the mount effect. *)
Definition fetchAdminData {E : Js.Engine} (st : State) : Promise State :=
  try_catch
    (allUsers <- getAllUsers ;;
     allScans <- getAllScans ;;
     ret (mkState allUsers allScans false))
    (fun _ => ret (mkState (users st) (allUploads st) false)).

(** [breeds.filter(v => v === a).length] *)
Definition occurrences (breeds : list string) (a : string) : Z :=
  Z.of_nat (List.length (filter (fun v => String.eqb v a) breeds)).

(** [mostCommon] of [getStats]; [None] is [undefined]. *)
Definition mostCommon (st : State) : option string :=
  let breeds := map breedName (allUploads st) in
  if (0 <? List.length breeds)%nat
  then Js.Array_pop
         (Js.Array_sort
            (fun a b => Some (occurrences breeds a - occurrences breeds b)%Z)
            breeds)
  else Some "N/A".

Definition totalUsers (st : State) : nat := List.length (users st).

Definition totalScans (st : State) : nat := List.length (allUploads st).

(** [handleDeleteScan]; [confirmed] is the answer to [window.confirm]. *)
Definition handleDeleteScan (confirmed : bool) (k : string) (st : State)
    : Promise State :=
  if negb confirmed then ret st
  else
    try_catch
      (_ <- deleteScan k ;;
       ret (mkState (users st)
              (filter (fun s => negb (String.eqb (br_id s) k))
                 (allUploads st))
              (isLoading st)))
      (fun _ => ret st).

End AdminDashboard.

(* ------------------------------------------------------------------ *)
(** * Notions used to state the properties *)

(** Keys strictly ascending: what an object store guarantees for its
    primary key. *)
Fixpoint ascendingb {A} (key : A -> string) (l : list A) : bool :=
  match l with
  | [] => true
  | x :: l' =>
      forallb (fun y => String.ltb (key x) (key y)) l' && ascendingb key l'
  end.

(** No two records share the indexed value: what a unique index
    guarantees. *)
Fixpoint uniqueb {A} (ix : A -> string) (l : list A) : bool :=
  match l with
  | [] => true
  | x :: l' =>
      negb (existsb (fun y => String.eqb (ix y) (ix x)) l') && uniqueb ix l'
  end.

(** The contents a database with this schema can have. *)
Definition store_ok (db : IDBDatabase) : bool :=
  ascendingb id (users db) && uniqueb email (users db)
  && ascendingb br_id (scans db).

(** The time value of a scan, [new Date(s.timestamp).getTime()]. *)
Definition time_of {E : Js.Engine} (s : BreedResult) : option Z :=
  Js.Date_getTime (timestamp s).

Definition valid_time {E : Js.Engine} (s : BreedResult) : Prop :=
  time_of s <> None.

(** A list ordered by timestamp, newest first: every record is at least
    as recent as every record after it. *)
Definition newest_to_oldest {E : Js.Engine} (l : list BreedResult) : Prop :=
  StronglySorted
    (fun a b => Js.Number_ge (time_of a) (time_of b) = true) l.

Definition owned_by (u : string) (s : BreedResult) : bool :=
  String.eqb (userId s) u.

(** Looking a record up by id in a listing. *)
Definition by_id (k : string) (l : list BreedResult) : option BreedResult :=
  find (fun x => String.eqb (br_id x) k) l.

Definition with_email (e : string) (l : list User) : list User :=
  filter (fun x => String.eqb (email x) e) l.

(** The database after a promise has settled, and the value it settled
    to. *)
Definition after {A} (p : Promise A) (db : IDBDatabase) : IDBDatabase :=
  snd (p db).

Definition outcome {A} (p : Promise A) (db : IDBDatabase) : Settled A :=
  fst (p db).

(** Seeding on each of a series of process starts. *)
Fixpoint seed_each (nows : list string) (db : IDBDatabase) : IDBDatabase :=
  match nows with
  | [] => db
  | now :: rest => seed_each rest (after (seedAdmin now) db)
  end.

(** Newest first as far as the records have a time at all: of any two
    records that both have a time value, the one that comes earlier in
    the list is at least as recent.  A record without a time value may
    stand anywhere. *)
Definition dated_newest_first {E : Js.Engine} (l : list BreedResult) : Prop :=
  ForallOrdPairs
    (fun a b => forall ta tb,
       time_of a = Some ta -> time_of b = Some tb -> (tb <= ta)%Z) l.

(** The listing by owner as the specification words it, with no
    condition on the timestamps: exactly the owner's stored scans,
    newest first. *)
Definition owner_listing_ordered {E : Js.Engine} (db : IDBDatabase)
    (u : string) : Prop :=
  exists l,
    outcome (getUserScans u) db = Resolved l
    /\ Permutation l (filter (owned_by u) (scans db))
    /\ dated_newest_first l.

(** The record [seedAdmin] writes. *)
Definition the_admin (now : string) : User :=
  mkUser "admin-1" "System Administrator" adminEmail ADMIN now.

(** Sample records. *)
Definition sample_user (k e : string) (r : UserRole) : User :=
  mkUser k "Sample" e r "2024-01-01T00:00:00.000Z".

Definition sample_scan (k u ts : string) : BreedResult :=
  mkBreedResult k u "data:image/jpeg;base64,AAAA" "Dog" "Beagle"
    92.5%float "A small scent hound." ["Harrier"; "Foxhound"] ts None
    450%float ["companionship"] "12-15 years" "Two meals a day"
    "One hour of walking" None.

Definition scan_with_extras : BreedResult :=
  spread_isPurchased
    (spread_healthAnalysis
       (sample_scan "s2" "u1" "2024-03-02T09:00:00.000Z")
       (mkHealthAnalysis
          [mkHealthIssue "Ear mites" Medium "Dark discharge" "See a vet"]
          "One issue found" false))
    true.

(** A store in which the owner has two dated scans and, between them in
    key order, one whose timestamp is no date. *)
Definition mixed_db : IDBDatabase :=
  mkDB [sample_user "u1" "a@x.com" USER]
       [sample_scan "s1" "u1" "2024-03-01T12:30:15.250Z";
        sample_scan "s2" "u1" "yesterday";
        sample_scan "s3" "u1" "2024-03-02T09:00:00.000Z"].

(** A store in which one scan of the owner carries a timestamp that is
    no date. *)
Definition undated_db : IDBDatabase :=
  mkDB [sample_user "u1" "a@x.com" USER]
       [sample_scan "s1" "u1" "2024-03-01T12:30:15.250Z";
        sample_scan "s2" "u1" "yesterday"].

(** The database [initApp] reads the pointer against: the opened one,
    seeded. *)
Definition seeded (now : string) (disk : option IDBDatabase) : IDBDatabase :=
  after (seedAdmin now) (open disk).

(** The restoring of the session as the specification words it, with
    no condition on the id the pointer holds: a pointer that resolves
    gives the identity and its screen, any other gives the landing
    screen. *)
Definition pointer_restored (now : string) (slot : App.Slot)
    (disk : option IDBDatabase) : Prop :=
  exists st,
    outcome (App.initApp now slot App.initial) (open disk) = Resolved st
    /\ match slot with
       | Some uid =>
           match get id uid (users (seeded now disk)) with
           | Some u =>
               App.currentUser st = Some u
               /\ App.view st
                  = match role u with
                    | ADMIN => App.admin
                    | USER => App.dashboard
                    end
           | None =>
               App.currentUser st = None /\ App.view st = App.landing
           end
       | None => App.currentUser st = None /\ App.view st = App.landing
       end.

(** A store holding an identity whose id is the empty string, the id
    that [Math.random().toString(36).substr(2, 9)] yields when the random
    number is 0. *)
Definition empty_id_disk : option IDBDatabase :=
  Some (mkDB [sample_user "" "z@x.com" USER] []).

(** Two scan records that agree on every field but the health
    analysis, or on every field but the purchased flag. *)
Definition same_but_healthAnalysis (r r' : BreedResult) : Prop :=
  br_id r' = br_id r /\ userId r' = userId r /\ imageUrl r' = imageUrl r
  /\ animalType r' = animalType r /\ breedName r' = breedName r
  /\ confidence r' = confidence r /\ description r' = description r
  /\ similarBreeds r' = similarBreeds r /\ timestamp r' = timestamp r
  /\ price r' = price r /\ uses r' = uses r
  /\ lifeExpectancy r' = lifeExpectancy r /\ dietRoutine r' = dietRoutine r
  /\ exercisePlan r' = exercisePlan r /\ isPurchased r' = isPurchased r.

Definition same_but_isPurchased (r r' : BreedResult) : Prop :=
  br_id r' = br_id r /\ userId r' = userId r /\ imageUrl r' = imageUrl r
  /\ animalType r' = animalType r /\ breedName r' = breedName r
  /\ confidence r' = confidence r /\ description r' = description r
  /\ similarBreeds r' = similarBreeds r /\ timestamp r' = timestamp r
  /\ price r' = price r /\ uses r' = uses r
  /\ lifeExpectancy r' = lifeExpectancy r /\ dietRoutine r' = dietRoutine r
  /\ exercisePlan r' = exercisePlan r
  /\ healthAnalysis r' = healthAnalysis r.

(** The invariant of the view controller. *)
Definition view_ok (st : App.State) : Prop :=
  match App.view st with
  | App.dashboard => exists u, App.currentUser st = Some u
  | App.admin => exists u, App.currentUser st = Some u /\ role u = ADMIN
  | _ => True
  end.

(** The listings as lists. *)
Definition owner_listing {E : Js.Engine} (u : string) (db : IDBDatabase)
    : list BreedResult :=
  match outcome (getUserScans u) db with
  | Resolved l => l
  | Rejected _ => []
  end.

Definition all_listing {E : Js.Engine} (db : IDBDatabase)
    : list BreedResult :=
  match outcome getAllScans db with
  | Resolved l => l
  | Rejected _ => []
  end.

(** A scan whose time value is earlier than [t]. *)
Definition older_than {E : Js.Engine} (t : Z) (x : BreedResult) : Prop :=
  exists tx, time_of x = Some tx /\ (tx < t)%Z.

(** The controller's view agrees with the role of the current
    identity. *)
Definition view_matches_role (st : App.State) : Prop :=
  match App.view st with
  | App.dashboard => exists u, App.currentUser st = Some u /\ role u = USER
  | App.admin => exists u, App.currentUser st = Some u /\ role u = ADMIN
  | _ => True
  end.

(** A string without a comma. *)
Fixpoint comma_free (s : string) : bool :=
  match s with
  | EmptyString => true
  | String c s' => negb (Ascii.eqb c ","%char) && comma_free s'
  end.


(** A sample of a decoded buffer within the nominal range, [-1 <= x < 1]. *)
Definition in_unit (x : number) : bool :=
  PrimFloat.leb (-1)%float x && PrimFloat.ltb x 1%float.

(** [in_unit] on the samples of [n] consecutive integers from [z]. *)
Fixpoint all_in_unit (n : nat) (z : Z) : bool :=
  match n with
  | O => true
  | S n' =>
      in_unit (GeminiService.sample_of z) && all_in_unit n' (z + 1)%Z
  end.

(** All the parts a response holds, candidate after candidate. *)
Definition all_parts (response : GeminiService.GenerateContentResponse)
    : list GeminiService.Part :=
  match GeminiService.candidates response with
  | Some cs =>
      flat_map
        (fun c =>
           match GeminiService.content c with
           | Some ct =>
               match GeminiService.parts ct with
               | Some ps => ps
               | None => []
               end
           | None => []
           end) cs
  | None => []
  end.

(** The audio payload of a response: the data of the first of its parts
    that carries inline data. *)
Definition audio_payload (response : GeminiService.GenerateContentResponse)
    : option string :=
  match find (fun p => match GeminiService.inlineData p with
                       | Some _ => true
                       | None => false
                       end) (all_parts response) with
  | Some p =>
      match GeminiService.inlineData p with
      | Some b => GeminiService.data b
      | None => None
      end
  | None => None
  end.

(** The speech operation as the specification words it: it returns the
    audio payload of the response, and the empty string when the response
    has none. *)
Definition speech_returns_payload
    (generateContent :
       GeminiService.SpeechRequest ->
       GeminiService.ApiResult GeminiService.GenerateContentResponse)
    (txt : string) : Prop :=
  forall response,
    generateContent
      (GeminiService.mkSpeechRequest "gemini-2.5-flash-preview-tts" txt
         ["AUDIO"] "Kore")
    = GeminiService.ApiOk response ->
    GeminiService.generateBreedAudio generateContent txt
    = GeminiService.ApiOk
        match audio_payload response with
        | Some d => d
        | None => ""
        end.

(** A response whose audio stands in the second part, after a part of
    text. *)
Definition later_audio_response : GeminiService.GenerateContentResponse :=
  GeminiService.mkResponse
    (Some [GeminiService.mkCandidate
             (Some (GeminiService.mkContent
                      (Some [GeminiService.mkPart None
                               (Some "Here is the narration.");
                             GeminiService.mkPart
                               (Some (GeminiService.mkBlob
                                        (Some "UklGRg==")
                                        (Some "audio/L16")))
                               None])))]).

(* ------------------------------------------------------------------ *)
(** * Strings as keys *)

Lemma compare_refl (a : string) : String.compare a a = Eq.
Proof.
  induction a as [|c a IH]; simpl; [reflexivity|].
  unfold Ascii.compare. now rewrite N.compare_refl.
Qed.

Lemma compare_Lt_trans (a b c : string) :
  String.compare a b = Lt -> String.compare b c = Lt ->
  String.compare a c = Lt.
Proof.
  intros Hab Hbc.
  apply String_as_OT.cmp_lt in Hab. apply String_as_OT.cmp_lt in Hbc.
  apply String_as_OT.cmp_lt. eapply String_as_OT.lt_trans; eassumption.
Qed.

Lemma compare_Gt_Lt (a b : string) :
  String.compare a b = Gt -> String.compare b a = Lt.
Proof.
  intros H. rewrite String.compare_antisym, H. reflexivity.
Qed.

Lemma ltb_Lt (a b : string) :
  String.ltb a b = true <-> String.compare a b = Lt.
Proof.
  unfold String.ltb. destruct (String.compare a b); split; congruence.
Qed.

Lemma ltb_trans (a b c : string) :
  String.ltb a b = true -> String.ltb b c = true -> String.ltb a c = true.
Proof. rewrite !ltb_Lt. apply compare_Lt_trans. Qed.

Lemma ltb_irrefl (a : string) : String.ltb a a = false.
Proof. unfold String.ltb. now rewrite compare_refl. Qed.

Lemma compare_neq_eqb (a b : string) :
  String.compare a b <> Eq -> String.eqb b a = false.
Proof.
  intros H. apply String.eqb_neq. intros ->. apply H, compare_refl.
Qed.

(* ------------------------------------------------------------------ *)
(** * The object store *)

(** A lookup by key finds the only record that has the key. *)
Lemma find_the_one {A} (f : A -> string) (r : A) (l : list A) :
  In r l -> (forall x, In x l -> f x = f r -> x = r) ->
  find (fun x => String.eqb (f x) (f r)) l = Some r.
Proof.
  induction l as [|y l IH]; simpl; [tauto|].
  intros Hin Huniq.
  destruct (String.eqb (f y) (f r)) eqn:E.
  - apply String.eqb_eq in E. f_equal. apply Huniq; auto.
  - destruct Hin as [->|Hin]; [now rewrite String.eqb_refl in E|].
    apply IH; auto.
Qed.

Section StoreFacts.
Context {A : Type} (key : A -> string).

Lemma put_In (r : A) (l : list A) : In r (put key r l).
Proof.
  induction l as [|x l IH]; simpl; [now left|].
  destruct (String.compare (key r) (key x)); simpl; auto.
Qed.

Lemma put_elems (r x : A) (l : list A) :
  In x (put key r l) -> x = r \/ In x l.
Proof.
  induction l as [|y l IH]; simpl.
  - intros [->|[]]. now left.
  - destruct (String.compare (key r) (key y)); simpl; intuition auto.
Qed.

Lemma put_forallb (P : A -> bool) (r : A) (l : list A) :
  P r = true -> forallb P l = true -> forallb P (put key r l) = true.
Proof.
  intros Hr. induction l as [|y l IH]; simpl; intros Hl.
  - now rewrite Hr.
  - apply andb_true_iff in Hl as [Hy Hl].
    destruct (String.compare (key r) (key y)); simpl;
      rewrite ?Hr, ?Hy, ?Hl, ?IH; auto.
Qed.

Lemma get_put_same (r : A) (l : list A) :
  get key (key r) (put key r l) = Some r.
Proof.
  unfold get. induction l as [|y l IH]; simpl.
  - now rewrite String.eqb_refl.
  - destruct (String.compare (key r) (key y)) eqn:E; simpl.
    + now rewrite String.eqb_refl.
    + now rewrite String.eqb_refl.
    + rewrite compare_neq_eqb by congruence. exact IH.
Qed.

Lemma ascendingb_put (r : A) (l : list A) :
  ascendingb key l = true -> ascendingb key (put key r l) = true.
Proof.
  induction l as [|y l IH]; simpl; [reflexivity|].
  intros H. apply andb_true_iff in H as [Hy Hl].
  destruct (String.compare (key r) (key y)) eqn:E; simpl.
  - apply String.compare_eq_iff in E. rewrite E, Hy, Hl. reflexivity.
  - apply ltb_Lt in E. rewrite E, Hy, Hl. simpl.
    rewrite andb_true_r. apply forallb_forall. intros z Hz.
    eapply ltb_trans; [exact E|].
    rewrite forallb_forall in Hy. now apply Hy.
  - rewrite IH by assumption. rewrite andb_true_r.
    apply put_forallb; [|assumption].
    now apply ltb_Lt, compare_Gt_Lt.
Qed.

Lemma ascendingb_key_inj (l : list A) (x y : A) :
  ascendingb key l = true -> In x l -> In y l -> key x = key y -> x = y.
Proof.
  induction l as [|z l IH]; simpl; [tauto|].
  intros H Hx Hy E. apply andb_true_iff in H as [Hz Hl].
  rewrite forallb_forall in Hz.
  destruct Hx as [->|Hx], Hy as [->|Hy]; auto.
  - specialize (Hz _ Hy). rewrite E, ltb_irrefl in Hz. discriminate.
  - specialize (Hz _ Hx). rewrite E, ltb_irrefl in Hz. discriminate.
Qed.

Lemma ascendingb_filter (P : A -> bool) (l : list A) :
  ascendingb key l = true -> ascendingb key (filter P l) = true.
Proof.
  induction l as [|z l IH]; simpl; [reflexivity|].
  intros H. apply andb_true_iff in H as [Hz Hl].
  destruct (P z); simpl; auto.
  rewrite IH by assumption. rewrite andb_true_r.
  apply forallb_forall. intros y Hy. apply filter_In in Hy as [Hy _].
  rewrite forallb_forall in Hz. now apply Hz.
Qed.

Lemma get_None_delete (k : string) (l : list A) :
  get key k l = None -> delete key k l = l.
Proof.
  unfold get, delete. induction l as [|y l IH]; simpl; [reflexivity|].
  destruct (String.eqb (key y) k); simpl; [discriminate|].
  intros H. now rewrite IH.
Qed.

Lemma delete_delete (k : string) (l : list A) :
  delete key k (delete key k l) = delete key k l.
Proof.
  unfold delete. induction l as [|y l IH]; simpl; [reflexivity|].
  destruct (String.eqb (key y) k) eqn:E; simpl; [exact IH|].
  rewrite E. simpl. now rewrite IH.
Qed.

End StoreFacts.

Lemma existsb_none {A} (f : A -> bool) (l : list A) :
  (forall z, In z l -> f z = true -> False) -> existsb f l = false.
Proof.
  intros H. destruct (existsb f l) eqn:X; [|reflexivity].
  apply existsb_exists in X as (z & Hz & Ez). destruct (H z Hz Ez).
Qed.

Lemma existsb_false {A} (f : A -> bool) (l : list A) :
  existsb f l = false -> forall z, In z l -> f z = false.
Proof.
  intros H z Hz. destruct (f z) eqn:E; [|reflexivity].
  rewrite <- H. symmetry. apply existsb_exists. eauto.
Qed.

Lemma uniqueb_count {A} (ix : A -> string) (l : list A) (r : A) :
  uniqueb ix l = true -> In r l ->
  filter (fun x => String.eqb (ix x) (ix r)) l = [r].
Proof.
  induction l as [|y l IH]; simpl; [tauto|].
  intros H Hin. apply andb_true_iff in H as [Hy Hl].
  apply negb_true_iff in Hy. pose proof (existsb_false _ _ Hy) as Hnone.
  destruct Hin as [->|Hin].
  - rewrite String.eqb_refl. f_equal.
    destruct (filter _ l) as [|z zs] eqn:F; [reflexivity|].
    assert (Hz : In z (filter (fun x => String.eqb (ix x) (ix r)) l))
      by (rewrite F; now left).
    apply filter_In in Hz as [Hz E]. rewrite (Hnone z Hz) in E.
    discriminate.
  - simpl in Hnone. rewrite String.eqb_sym, (Hnone r Hin). now apply IH.
Qed.

Section IndexFacts.
Context {A : Type} (key : A -> string).

(** Putting a record whose key no selected record holds adds it to the
    selection and keeps the rest. *)
Lemma filter_put (P : A -> bool) (r : A) (l : list A) :
  P r = true ->
  (forall x, In x l -> P x = true -> key x <> key r) ->
  Permutation (filter P (put key r l)) (r :: filter P l).
Proof.
  intros Hr. induction l as [|y l IH]; simpl; intros Hfresh.
  - now rewrite Hr.
  - destruct (String.compare (key r) (key y)) eqn:E; simpl.
    + rewrite Hr. apply String.compare_eq_iff in E.
      destruct (P y) eqn:Py; [|reflexivity].
      exfalso. apply (Hfresh y); auto.
    + rewrite Hr. reflexivity.
    + assert (IH' : Permutation (filter P (put key r l)) (r :: filter P l)).
      { apply IH. intros x Hx. apply Hfresh. now right. }
      destruct (P y).
      * rewrite IH'. apply perm_swap.
      * exact IH'.
Qed.

(** An index lookup that finds nothing means no record holds the value. *)
Lemma index_get_None (ix : A -> string) (v : string) (l : list A) :
  index_get ix v l = None -> forall x, In x l -> ix x <> v.
Proof.
  unfold index_get. intros H x Hx E.
  apply (find_none _ _ H) in Hx. apply String.eqb_neq in Hx. auto.
Qed.

Lemma index_get_Some (ix : A -> string) (v : string) (l : list A) (r : A) :
  index_get ix v l = Some r -> In r l /\ ix r = v.
Proof.
  unfold index_get. intros H. apply find_some in H as [H1 H2].
  split; [assumption|now apply String.eqb_eq].
Qed.

Lemma violates_unique_false (ix : A -> string) (r : A) (l : list A) :
  violates_unique key ix r l = false <->
  (forall x, In x l -> ix x = ix r -> key x = key r).
Proof.
  unfold violates_unique. split.
  - intros H x Hx E.
    destruct (String.eqb (key x) (key r)) eqn:K;
      [now apply String.eqb_eq|].
    assert (existsb (fun x => String.eqb (ix x) (ix r)
              && negb (String.eqb (key x) (key r))) l = true).
    { apply existsb_exists. exists x. split; [assumption|].
      rewrite K. apply String.eqb_eq in E. now rewrite E. }
    congruence.
  - intros H.
    destruct (existsb _ l) eqn:X; [|reflexivity].
    apply existsb_exists in X as (x & Hx & Hc).
    apply andb_true_iff in Hc as [E K].
    apply String.eqb_eq in E. rewrite (H x Hx E), String.eqb_refl in K.
    discriminate.
Qed.

Lemma uniqueb_put (ix : A -> string) (r : A) (l : list A) :
  ascendingb key l = true -> uniqueb ix l = true ->
  violates_unique key ix r l = false ->
  uniqueb ix (put key r l) = true.
Proof.
  intros Hasc Huni Hv. rewrite violates_unique_false in Hv.
  induction l as [|y l IH]; simpl; [reflexivity|].
  simpl in Hasc, Huni.
  apply andb_true_iff in Hasc as [Hy Hasc].
  apply andb_true_iff in Huni as [Ny Huni].
  rewrite forallb_forall in Hy.
  apply negb_true_iff in Ny. pose proof (existsb_false _ _ Ny) as Ny'.
  destruct (String.compare (key r) (key y)) eqn:E; simpl.
  - rewrite Huni, andb_true_r. apply negb_true_iff, existsb_none.
    intros z Hz Ez. apply String.eqb_eq in Ez.
    apply String.compare_eq_iff in E.
    specialize (Hy z Hz). rewrite <- E, <- (Hv z (or_intror Hz) Ez) in Hy.
    now rewrite ltb_irrefl in Hy.
  - rewrite Ny, Huni. simpl. rewrite andb_true_r.
    apply negb_true_iff. apply ltb_Lt in E.
    apply orb_false_iff. split.
    + apply String.eqb_neq. intros Ey.
      rewrite <- (Hv y (or_introl eq_refl) Ey), ltb_irrefl in E.
      discriminate.
    + apply existsb_none. intros z Hz Ez. apply String.eqb_eq in Ez.
      pose proof (ltb_trans _ _ _ E (Hy z Hz)) as Hlt.
      rewrite (Hv z (or_intror Hz) Ez), ltb_irrefl in Hlt. discriminate.
  - rewrite IH; auto.
    + rewrite andb_true_r. apply negb_true_iff, existsb_none.
      intros z Hz Ez. apply put_elems in Hz as [->|Hz].
      * apply String.eqb_eq in Ez. symmetry in Ez.
        pose proof (Hv y (or_introl eq_refl) Ez) as K.
        rewrite K, compare_refl in E. discriminate.
      * rewrite (Ny' z Hz) in Ez. discriminate.
    + intros x Hx. apply Hv. now right.
Qed.

End IndexFacts.

(* ------------------------------------------------------------------ *)
(** * Sorting by timestamp *)

Lemma sort_insert_perm {A} (cmp : A -> A -> option Z) (x : A) (l : list A) :
  Permutation (Js.sort_insert cmp x l) (x :: l).
Proof.
  induction l as [|y l IH]; simpl; [reflexivity|].
  destruct (0 <? Js.SortCompare cmp x y)%Z; [|reflexivity].
  rewrite IH. apply perm_swap.
Qed.

Lemma Array_sort_perm {A} (cmp : A -> A -> option Z) (l : list A) :
  Permutation (Js.Array_sort cmp l) l.
Proof.
  induction l as [|x l IH]; simpl; [reflexivity|].
  rewrite sort_insert_perm. now constructor.
Qed.

Lemma valid_time_Some {E : Js.Engine} (s : BreedResult) :
  valid_time s -> exists t, time_of s = Some t.
Proof.
  unfold valid_time. destruct (time_of s) as [t|]; [eauto|congruence].
Qed.

Lemma sort_insert_sorted {E : Js.Engine}
    (x : BreedResult) (l : list BreedResult) :
  valid_time x -> Forall valid_time l -> newest_to_oldest l ->
  newest_to_oldest (Js.sort_insert newest_first x l).
Proof.
  intros Hx Hl Hs. destruct (valid_time_Some x Hx) as [tx Ex].
  induction l as [|y l IH]; simpl.
  - repeat constructor.
  - inversion Hl as [|? ? Hy Hl']; subst.
    inversion Hs as [|? ? Hs' Hall]; subst.
    destruct (valid_time_Some y Hy) as [ty Ey].
    unfold Js.SortCompare, newest_first. fold (time_of y). fold (time_of x).
    rewrite Ex, Ey. simpl.
    destruct (0 <? ty - tx)%Z eqn:C.
    + constructor; [now apply IH|].
      apply (Permutation_Forall
               (Permutation_sym (sort_insert_perm newest_first x l))).
      constructor; [|assumption].
      rewrite Ey, Ex. simpl. apply Z.leb_le. apply Z.ltb_lt in C. lia.
    + apply Z.ltb_ge in C. constructor; [assumption|].
      constructor.
      * rewrite Ex, Ey. simpl. apply Z.leb_le. lia.
      * eapply Forall_impl; [|exact Hall]. simpl. intros z Hz.
        rewrite Ey in Hz. rewrite Ex.
        destruct (time_of z) as [tz|]; simpl in *; [|discriminate].
        apply Z.leb_le. apply Z.leb_le in Hz. lia.
Qed.

Lemma Array_sort_sorted {E : Js.Engine} (l : list BreedResult) :
  Forall valid_time l -> newest_to_oldest (Js.Array_sort newest_first l).
Proof.
  induction l as [|x l IH]; simpl; intros H.
  - constructor.
  - inversion H; subst. apply sort_insert_sorted; auto.
    apply (Permutation_Forall
             (Permutation_sym (Array_sort_perm newest_first l))).
    assumption.
Qed.

(** Two scans with distinct times come out newest first, whichever way
    round the index hands them over. *)
Lemma Array_sort_pair {E : Js.Engine}
    (s1 s2 : BreedResult) (t1 t2 : Z) (l : list BreedResult) :
  time_of s1 = Some t1 -> time_of s2 = Some t2 -> (t1 < t2)%Z ->
  Permutation l [s2; s1] ->
  Js.Array_sort newest_first l = [s2; s1].
Proof.
  intros E1 E2 Hlt Hp. apply Permutation_sym in Hp.
  apply Permutation_length_2_inv in Hp as [->| ->]; simpl;
    unfold Js.SortCompare, newest_first;
    fold (time_of s1); fold (time_of s2); rewrite E1, E2; simpl.
  - destruct (0 <? t1 - t2)%Z eqn:C; [apply Z.ltb_lt in C; lia|reflexivity].
  - destruct (0 <? t2 - t1)%Z eqn:C; [reflexivity|apply Z.ltb_ge in C; lia].
Qed.

(* ------------------------------------------------------------------ *)
(** * Identities: the unique index on email *)

(** C1.  Two identities with distinct ids and the same email, put one
    after the other into a store in which no other identity holds that
    email: the first put resolves, the second is rejected with a
    constraint error and changes nothing, and the first record can still
    be read back by its id. *)
Theorem duplicate_email_rejected (db : IDBDatabase) (u1 u2 : User) :
  id u1 <> id u2 -> email u1 = email u2 ->
  violates_unique id email u1 (users db) = false ->
  exists db1,
    saveUser u1 db = (Resolved tt, db1)
    /\ saveUser u2 db1 = (Rejected ConstraintError, db1)
    /\ getUser (id u1) db1 = (Resolved (Some u1), db1).
Proof.
  intros Hid Hem Hfree.
  exists (mkDB (put id u1 (users db)) (scans db)).
  unfold saveUser, getUser, await, init, ret, put_unique. simpl.
  rewrite Hfree. split; [reflexivity|]. split.
  - assert (V : violates_unique id email u2 (put id u1 (users db)) = true).
    { apply existsb_exists. exists u1. split; [apply put_In|].
      rewrite Hem, String.eqb_refl. simpl. apply negb_true_iff.
      now apply String.eqb_neq. }
    now rewrite V.
  - now rewrite get_put_same.
Qed.

Lemma duplicate_email_rejected_witness :
  exists db1,
    saveUser (sample_user "u1" "a@x.com" USER) onupgradeneeded
      = (Resolved tt, db1)
    /\ saveUser (sample_user "u2" "a@x.com" USER) db1
      = (Rejected ConstraintError, db1)
    /\ getUser "u1" db1
      = (Resolved (Some (sample_user "u1" "a@x.com" USER)), db1).
Proof.
  apply (duplicate_email_rejected onupgradeneeded
           (sample_user "u1" "a@x.com" USER)
           (sample_user "u2" "a@x.com" USER)).
  - discriminate.
  - reflexivity.
  - reflexivity.
Defined.

(* ------------------------------------------------------------------ *)
(** * Seeding the administrator *)

Lemma seedAdmin_absent (db : IDBDatabase) (now : string) :
  index_get email adminEmail (users db) = None ->
  seedAdmin now db
  = (Resolved tt, mkDB (put id (the_admin now) (users db)) (scans db)).
Proof.
  intros H. unfold seedAdmin, getUserByEmail, saveUser, await, init, ret.
  simpl. rewrite H. unfold put_unique.
  assert (V : violates_unique id email (the_admin now) (users db) = false).
  { apply violates_unique_false. intros x Hx E.
    destruct (index_get_None email adminEmail _ H x Hx). exact E. }
  unfold the_admin in V. now rewrite V.
Qed.

Lemma seedAdmin_present (db : IDBDatabase) (now : string) (a : User) :
  index_get email adminEmail (users db) = Some a ->
  seedAdmin now db = (Resolved tt, db).
Proof.
  intros H. unfold seedAdmin, getUserByEmail, await, init, ret.
  simpl. now rewrite H.
Qed.

Lemma seedAdmin_resolves (db : IDBDatabase) (now : string) :
  outcome (seedAdmin now) db = Resolved tt.
Proof.
  unfold outcome.
  destruct (index_get email adminEmail (users db)) eqn:E.
  - now rewrite (seedAdmin_present _ _ _ E).
  - now rewrite (seedAdmin_absent _ _ E).
Qed.

Lemma seedAdmin_seeds (db : IDBDatabase) (now : string) :
  exists a, index_get email adminEmail
              (users (after (seedAdmin now) db)) = Some a.
Proof.
  unfold after.
  destruct (index_get email adminEmail (users db)) eqn:E.
  - rewrite (seedAdmin_present _ _ _ E). simpl. eauto.
  - rewrite (seedAdmin_absent _ _ E). simpl.
    destruct (index_get email adminEmail (put id (the_admin now) (users db)))
      eqn:F; [eauto|].
    destruct (index_get_None email adminEmail _ F (the_admin now)
                (put_In id _ _)).
    reflexivity.
Qed.

Lemma seed_each_seeded (nows : list string) (db : IDBDatabase) (a : User) :
  index_get email adminEmail (users db) = Some a ->
  seed_each nows db = db.
Proof.
  revert db. induction nows as [|now nows IH]; simpl; intros db H;
    [reflexivity|].
  unfold after. rewrite (seedAdmin_present _ _ _ H). simpl. now apply IH.
Qed.

(** One administrator record after a first seeding of a well-formed
    store. *)
Lemma seedAdmin_one_admin (db : IDBDatabase) (now : string) :
  store_ok db = true ->
  exists a, with_email adminEmail (users (after (seedAdmin now) db)) = [a].
Proof.
  intros Hok. unfold store_ok in Hok.
  apply andb_true_iff in Hok as [Hok _].
  apply andb_true_iff in Hok as [_ Huni].
  unfold after.
  destruct (index_get email adminEmail (users db)) as [a|] eqn:E.
  - rewrite (seedAdmin_present _ _ _ E). simpl. exists a.
    apply index_get_Some in E as [Hin Hem].
    unfold with_email. rewrite <- Hem. now apply uniqueb_count.
  - rewrite (seedAdmin_absent _ _ E). simpl. exists (the_admin now).
    pose proof (index_get_None email adminEmail _ E) as Hnone.
    assert (P : Permutation
                  (with_email adminEmail (put id (the_admin now) (users db)))
                  (the_admin now :: with_email adminEmail (users db))).
    { apply filter_put; [reflexivity|].
      intros x Hx Ex. apply String.eqb_eq in Ex.
      destruct (Hnone x Hx Ex). }
    assert (Z : with_email adminEmail (users db) = []).
    { unfold with_email.
      destruct (filter _ (users db)) as [|z zs] eqn:F; [reflexivity|].
      assert (Hz : In z (filter (fun x => String.eqb (email x) adminEmail)
                           (users db))) by (rewrite F; now left).
      apply filter_In in Hz as [Hz Ez]. apply String.eqb_eq in Ez.
      destruct (Hnone z Hz Ez). }
    rewrite Z in P. apply Permutation_sym in P.
    now apply Permutation_length_1_inv in P.
Qed.

(** C3.  Seeding resolves; seeding a second time leaves the store as
    the first seeding left it, whatever the store held before and
    whatever the clock reads; and however many times a store with this
    schema is seeded, the listing of all identities then holds exactly
    one record with the administrator's email. *)
Theorem seedAdmin_idempotent (db : IDBDatabase) (now1 now2 : string) :
  outcome (seedAdmin now1) db = Resolved tt
  /\ after (seedAdmin now2) (after (seedAdmin now1) db)
     = after (seedAdmin now1) db
  /\ (store_ok db = true ->
      forall nows, exists l a,
        outcome getAllUsers (seed_each (now1 :: nows) db) = Resolved l
        /\ with_email adminEmail l = [a]).
Proof.
  split; [apply seedAdmin_resolves|]. split.
  - destruct (seedAdmin_seeds db now1) as [a Ha].
    unfold after at 1. now rewrite (seedAdmin_present _ _ _ Ha).
  - intros Hok nows. simpl.
    destruct (seedAdmin_seeds db now1) as [a Ha].
    rewrite (seed_each_seeded nows _ _ Ha).
    destruct (seedAdmin_one_admin db now1 Hok) as [b Hb].
    exists (users (after (seedAdmin now1) db)), b.
    split; [reflexivity|exact Hb].
Qed.

Lemma seedAdmin_idempotent_witness :
  exists l a,
    outcome getAllUsers
      (seed_each ["2024-05-01T08:00:00.000Z"; "2024-05-02T09:30:00.000Z"]
         (mkDB [sample_user "u1" "a@x.com" USER] []))
    = Resolved l
    /\ with_email adminEmail l = [a].
Proof.
  apply (seedAdmin_idempotent (mkDB [sample_user "u1" "a@x.com" USER] [])
           "2024-05-01T08:00:00.000Z" "2024-05-01T08:00:00.000Z").
  reflexivity.
Defined.

(* ------------------------------------------------------------------ *)
(** * Scans: deletion, round trip, listing *)

(** C5.  Deleting a scan by id resolves for every id and every store;
    deleting again changes nothing more; and when no scan has the id the
    store is left exactly as it was. *)
Theorem deleteScan_absent (db : IDBDatabase) (k : string) :
  outcome (deleteScan k) db = Resolved tt
  /\ after (deleteScan k) (after (deleteScan k) db)
     = after (deleteScan k) db
  /\ (get br_id k (scans db) = None -> after (deleteScan k) db = db).
Proof.
  unfold outcome, after, deleteScan, await, init, ret. simpl.
  split; [reflexivity|]. split.
  - now rewrite delete_delete.
  - intros H. rewrite (get_None_delete br_id k _ H). now destruct db.
Qed.

Lemma deleteScan_absent_witness :
  after (deleteScan "s9")
    (mkDB [] [sample_scan "s1" "u1" "2024-03-01T12:30:15.250Z"])
  = mkDB [] [sample_scan "s1" "u1" "2024-03-01T12:30:15.250Z"].
Proof.
  apply (deleteScan_absent
           (mkDB [] [sample_scan "s1" "u1" "2024-03-01T12:30:15.250Z"])
           "s9").
  reflexivity.
Defined.

Lemma scan_in_listing (cmp : BreedResult -> BreedResult -> option Z)
    (P : BreedResult -> bool) (s : BreedResult) (l : list BreedResult) :
  ascendingb br_id l = true -> P s = true ->
  by_id (br_id s) (Js.Array_sort cmp (filter P (put br_id s l))) = Some s.
Proof.
  intros Hasc HP. unfold by_id. apply find_the_one.
  - eapply Permutation_in; [apply Permutation_sym, Array_sort_perm|].
    apply filter_In. split; [apply put_In|assumption].
  - intros x Hx E.
    eapply Permutation_in in Hx; [|apply Array_sort_perm].
    apply filter_In in Hx as [Hx _].
    apply (ascendingb_key_inj br_id (put br_id s l)); auto.
    + now apply ascendingb_put.
    + apply put_In.
Qed.

Lemma filter_true {A} (l : list A) : filter (fun _ => true) l = l.
Proof. induction l as [|x l IH]; simpl; [reflexivity|now rewrite IH]. Qed.

(** C4.  A scan stored with [saveScan] is found under its id in the
    owner's listing and in the listing of all scans, and the record found
    is the stored one, every field included (the optional health analysis
    and the optional purchased flag among them). *)
Theorem scan_round_trip {E : Js.Engine} (db : IDBDatabase) (s : BreedResult) :
  store_ok db = true ->
  (exists l,
     outcome (getUserScans (userId s)) (after (saveScan s) db) = Resolved l
     /\ by_id (br_id s) l = Some s)
  /\ (exists l,
        outcome getAllScans (after (saveScan s) db) = Resolved l
        /\ by_id (br_id s) l = Some s).
Proof.
  intros Hok. unfold store_ok in Hok.
  apply andb_true_iff in Hok as [_ Hasc].
  unfold outcome, after, getUserScans, getAllScans, saveScan, await, init,
    ret, index_getAll, getAll. simpl.
  split; eexists; (split; [reflexivity|]).
  - apply scan_in_listing; [assumption|]. apply String.eqb_refl.
  - rewrite <- (filter_true (put br_id s (scans db))).
    now apply scan_in_listing.
Qed.

Lemma scan_round_trip_witness :
  (exists l,
     outcome ((getUserScans (E := Js.standard_only)) "u1")
       (after (saveScan scan_with_extras)
          (mkDB [] [sample_scan "s1" "u1" "2024-03-01T12:30:15.250Z"]))
     = Resolved l
     /\ by_id "s2" l = Some scan_with_extras)
  /\ (exists l,
        outcome (getAllScans (E := Js.standard_only))
          (after (saveScan scan_with_extras)
             (mkDB [] [sample_scan "s1" "u1" "2024-03-01T12:30:15.250Z"]))
        = Resolved l
        /\ by_id "s2" l = Some scan_with_extras).
Proof.
  apply (scan_round_trip (E := Js.standard_only)
           (mkDB [] [sample_scan "s1" "u1" "2024-03-01T12:30:15.250Z"])
           scan_with_extras).
  reflexivity.
Defined.

Lemma newest_to_oldest_dated {E : Js.Engine} (l : list BreedResult) :
  newest_to_oldest l -> dated_newest_first l.
Proof.
  unfold newest_to_oldest, dated_newest_first.
  induction 1 as [|a l _ IH Hall]; constructor; [|assumption].
  eapply Forall_impl; [|exact Hall]. simpl.
  intros b Hge ta tb Ea Eb. rewrite Ea, Eb in Hge. simpl in Hge.
  now apply Z.leb_le.
Qed.

(** The claim C2 as the specification states it fails on [mixed_db],
    whatever the engine makes of other date shapes.  The owner's scans
    are handed over in key order, s1 (1 March), s2 (no date), s3
    (2 March); the comparator answers NaN for each neighbouring pair,
    which counts as equal, so the sort finds the three in order and
    leaves them as they stand: the listing has the scan of 1 March ahead
    of the scan of 2 March. *)
Lemma owner_listing_unordered :
  ~ (exists E : Js.Engine, owner_listing_ordered (E := E) mixed_db "u1").
Proof.
  intros (E & l & Hl & _ & Hs).
  assert (Hrun : outcome (getUserScans "u1") mixed_db
                 = Resolved [sample_scan "s1" "u1" "2024-03-01T12:30:15.250Z";
                             sample_scan "s2" "u1" "yesterday";
                             sample_scan "s3" "u1" "2024-03-02T09:00:00.000Z"])
    by reflexivity.
  rewrite Hrun in Hl. injection Hl as <-.
  inversion Hs as [|? ? Hall _]; subst.
  inversion Hall as [|? ? _ Hall']; subst.
  inversion Hall' as [|? ? H13 _]; subst.
  specialize (H13 1709296215250%Z 1709370000000%Z eq_refl eq_refl). lia.
Qed.

(** C2 (amended).  For every owner whose stored scans all carry a
    timestamp that parses as a date, on whatever engine, the listing by
    owner resolves to exactly the stored scans of that owner, newest
    first.  And after storing, for an owner without scans, a scan [s1] and
    then a scan [s2] with another id and a later time, the listing is
    [[s2; s1]]. *)
Theorem owner_listing_newest_first {E : Js.Engine} (db : IDBDatabase)
    (u : string) :
  (Forall valid_time (filter (owned_by u) (scans db)) ->
   exists l,
     outcome (getUserScans u) db = Resolved l
     /\ Permutation l (filter (owned_by u) (scans db))
     /\ newest_to_oldest l
     /\ owner_listing_ordered db u)
  /\ (forall s1 s2 t1 t2,
        filter (owned_by u) (scans db) = [] ->
        userId s1 = u -> userId s2 = u -> br_id s1 <> br_id s2 ->
        time_of s1 = Some t1 -> time_of s2 = Some t2 -> (t1 < t2)%Z ->
        outcome (getUserScans u)
          (after (saveScan s2) (after (saveScan s1) db))
        = Resolved [s2; s1]).
Proof.
  split.
  - intros Hvalid.
    exists (Js.Array_sort newest_first (filter (owned_by u) (scans db))).
    split; [reflexivity|]. split; [apply Array_sort_perm|].
    split; [now apply Array_sort_sorted|].
    exists (Js.Array_sort newest_first (filter (owned_by u) (scans db))).
    split; [reflexivity|]. split; [apply Array_sort_perm|].
    now apply newest_to_oldest_dated, Array_sort_sorted.
  - intros s1 s2 t1 t2 Hnone O1 O2 Hid E1 E2 Hlt.
    unfold outcome, after, getUserScans, saveScan, await, init, ret,
      index_getAll. simpl. f_equal.
    apply (Array_sort_pair s1 s2 t1 t2); auto.
    assert (Hno : forall x, In x (scans db) -> owned_by u x = true -> False).
    { intros x Hx Px.
      assert (Hin : In x (filter (owned_by u) (scans db)))
        by (apply filter_In; auto).
      rewrite Hnone in Hin. destruct Hin. }
    assert (P1 : Permutation (filter (owned_by u) (put br_id s1 (scans db)))
                   [s1]).
    { pose proof (filter_put br_id (owned_by u) s1 (scans db)) as F.
      rewrite Hnone in F. apply F.
      - unfold owned_by. rewrite O1. apply String.eqb_refl.
      - intros x Hx Px. destruct (Hno x Hx Px). }
    change (fun x : BreedResult => String.eqb (userId x) u)
      with (owned_by u).
    rewrite <- P1. apply filter_put.
    + unfold owned_by. rewrite O2. apply String.eqb_refl.
    + intros x Hx Px E0.
      apply put_elems in Hx as [->|Hx]; [now apply Hid|].
      destruct (Hno x Hx Px).
Qed.

Lemma owner_listing_newest_first_witness :
  (exists l,
     outcome (getUserScans (E := Js.standard_only) "u1")
       (mkDB [] [sample_scan "s1" "u1" "2024-03-01T12:30:15.250Z";
                 sample_scan "s2" "u2" "yesterday";
                 sample_scan "s3" "u1" "2024-03-02T09:00:00.000Z"])
     = Resolved l
     /\ newest_to_oldest (E := Js.standard_only) l)
  /\ outcome (getUserScans (E := Js.standard_only) "u1")
       (after (saveScan (sample_scan "s2" "u1" "2024-03-02T09:00:00.000Z"))
          (after (saveScan
                    (sample_scan "s1" "u1" "2024-03-01T12:30:15.250Z"))
             (mkDB [sample_user "u1" "a@x.com" USER] [])))
     = Resolved [sample_scan "s2" "u1" "2024-03-02T09:00:00.000Z";
                 sample_scan "s1" "u1" "2024-03-01T12:30:15.250Z"].
Proof.
  split.
  - destruct (proj1 (owner_listing_newest_first (E := Js.standard_only)
                       (mkDB [] [sample_scan "s1" "u1"
                                   "2024-03-01T12:30:15.250Z";
                                 sample_scan "s2" "u2" "yesterday";
                                 sample_scan "s3" "u1"
                                   "2024-03-02T09:00:00.000Z"])
                       "u1"))
      as (l & Hl & _ & Hs & _).
    + repeat constructor; discriminate.
    + exists l. split; [exact Hl|exact Hs].
  - apply (proj2 (owner_listing_newest_first (E := Js.standard_only)
                    (mkDB [sample_user "u1" "a@x.com" USER] []) "u1")
             (sample_scan "s1" "u1" "2024-03-01T12:30:15.250Z")
             (sample_scan "s2" "u1" "2024-03-02T09:00:00.000Z")
             1709296215250%Z 1709370000000%Z);
      solve [reflexivity | discriminate].
Defined.

(* ------------------------------------------------------------------ *)
(** * The session: restoring the persisted pointer *)

Lemma restore_resolves (now : string) (slot : App.Slot) (db : IDBDatabase) :
  App.restore now slot db
  = (Resolved
       match slot with
       | Some uid =>
           if Js.truthy uid
           then get id uid (users (after (seedAdmin now) db))
           else None
       | None => None
       end,
     after (seedAdmin now) db).
Proof.
  unfold App.restore, await, init, ret, after. simpl.
  pose proof (seedAdmin_resolves db now) as R. unfold outcome in R.
  destruct (seedAdmin now db) as [r db1]. simpl in *. subst r.
  destruct slot as [uid|]; [|reflexivity].
  destruct (Js.truthy uid); reflexivity.
Qed.

Lemma initApp_resolves (now : string) (slot : App.Slot) (st : App.State)
    (db : IDBDatabase) :
  App.initApp now slot st db
  = (Resolved
       match (match slot with
              | Some uid =>
                  if Js.truthy uid
                  then get id uid (users (after (seedAdmin now) db))
                  else None
              | None => None
              end) with
       | Some u => App.mkState (Some u) (App.home u) false
       | None => App.mkState (App.currentUser st) (App.view st) false
       end,
     after (seedAdmin now) db).
Proof.
  unfold App.initApp, await, try_catch, ret.
  rewrite restore_resolves.
  destruct slot as [uid|]; [|reflexivity].
  destruct (Js.truthy uid); [|reflexivity].
  destruct (get id uid _); reflexivity.
Qed.

Lemma home_role (u : User) :
  App.home u = match role u with
               | ADMIN => App.admin
               | USER => App.dashboard
               end.
Proof. unfold App.home. now destruct (role u). Qed.

(** The claim C6 as the specification states it fails on
    [empty_id_disk] when the pointer slot holds the empty id: the
    identity exists and the pointer resolves to it, yet the truthiness
    test on the pointer sends the session to the landing screen. *)
Lemma empty_pointer_not_restored :
  ~ pointer_restored "2024-05-01T08:00:00.000Z" (Some "") empty_id_disk.
Proof.
  intros (st & Hst & Hcur & _).
  unfold outcome in Hst. rewrite initApp_resolves in Hst.
  simpl in Hst. injection Hst as <-. discriminate Hcur.
Qed.

(** C6 (amended).  On process start the store is opened and seeded and
    [initApp] resolves with initialisation over.  If the pointer slot
    holds a non-empty id that [getUser] resolves to an identity of the
    seeded store, that identity becomes the current one and the screen is
    admin for an administrator and dashboard otherwise.  If the slot is
    absent, holds the empty string, or holds an id that resolves to
    nothing, the current identity stays absent and the screen stays
    landing. *)
Theorem session_restore (now : string) (slot : App.Slot)
    (disk : option IDBDatabase) :
  exists st,
    App.initApp now slot App.initial (open disk)
    = (Resolved st, seeded now disk)
    /\ App.isInitializing st = false
    /\ (forall uid u,
          slot = Some uid -> uid <> "" ->
          outcome (getUser uid) (seeded now disk) = Resolved (Some u) ->
          App.currentUser st = Some u
          /\ App.view st = match role u with
                           | ADMIN => App.admin
                           | USER => App.dashboard
                           end)
    /\ (slot = None \/ slot = Some ""
        \/ (exists uid, slot = Some uid
             /\ outcome (getUser uid) (seeded now disk) = Resolved None) ->
        App.currentUser st = None /\ App.view st = App.landing).
Proof.
  rewrite initApp_resolves. fold (seeded now disk).
  eexists. split; [reflexivity|]. split.
  - destruct slot as [uid|]; [|reflexivity].
    destruct (Js.truthy uid); [|reflexivity].
    destruct (get id uid _); reflexivity.
  - split.
    + intros uid u -> Hne Hget.
      assert (T : Js.truthy uid = true).
      { unfold Js.truthy. apply negb_true_iff. now apply String.eqb_neq. }
      rewrite T. unfold outcome, getUser, await, init, ret in Hget.
      simpl in Hget. injection Hget as ->. simpl.
      split; [reflexivity|apply home_role].
    + intros [->|[->|(uid & -> & Hget)]]; try (split; reflexivity).
      unfold outcome, getUser, await, init, ret in Hget.
      simpl in Hget. injection Hget as ->.
      destruct (Js.truthy uid); split; reflexivity.
Qed.

Lemma session_restore_witness :
  exists st,
    App.initApp "2024-05-01T08:00:00.000Z" (Some "admin-1") App.initial
      (open None)
    = (Resolved st, seeded "2024-05-01T08:00:00.000Z" None)
    /\ App.currentUser st = Some (the_admin "2024-05-01T08:00:00.000Z")
    /\ App.view st = App.admin.
Proof.
  destruct (session_restore "2024-05-01T08:00:00.000Z" (Some "admin-1")
              None) as (st & Hrun & _ & Hsome & _).
  exists st. split; [exact Hrun|].
  apply (Hsome "admin-1" (the_admin "2024-05-01T08:00:00.000Z")).
  - reflexivity.
  - discriminate.
  - reflexivity.
Defined.

(* ------------------------------------------------------------------ *)
(** * The view controller *)

Lemma view_ok_login (user : User) (b : bool) :
  view_ok (App.mkState (Some user) (App.home user) b).
Proof.
  unfold view_ok, App.home. simpl.
  destruct (role user) eqn:R; simpl; eauto.
Qed.

Lemma view_ok_step (st st' : App.State) :
  App.step st st' -> view_ok st -> view_ok st'.
Proof.
  intros Hstep Hok. destruct Hstep; try exact I.
  - rewrite initApp_resolves in H. injection H as <- _.
    destruct slot as [uid|]; [|exact Hok].
    destruct (Js.truthy uid); [|exact Hok].
    destruct (get id uid _); [apply view_ok_login|exact Hok].
  - apply view_ok_login.
  - unfold view_ok, App.setView, App.home. simpl.
    destruct (role u) eqn:R; simpl; eauto.
Qed.

Lemma reachable_view_ok (st : App.State) : App.reachable st -> view_ok st.
Proof.
  induction 1 as [|st st' _ IH Hstep]; [exact I|].
  eapply view_ok_step; eassumption.
Qed.

(** C7.  In every reachable state of the view controller the dashboard
    is rendered for the current identity, which is present, and the
    admin screen is rendered only for a current identity with the
    administrator role.  And in whatever state the admin screen is
    selected while the current identity is no administrator, it is the
    standard dashboard that is rendered. *)
Theorem screen_preconditions (st : App.State) :
  App.reachable st ->
  (forall o, App.render st = App.Dashboard o ->
             exists u, o = Some u /\ App.currentUser st = Some u)
  /\ (forall u, App.render st = App.AdminDashboard u ->
                App.currentUser st = Some u /\ role u = ADMIN)
  /\ (forall b u, role u <> ADMIN ->
                  App.render (App.mkState (Some u) App.admin b)
                  = if b then App.Spinner else App.Dashboard (Some u)).
Proof.
  intros Hreach. pose proof (reachable_view_ok st Hreach) as Hok.
  unfold view_ok in Hok. unfold App.render, App.renderContent.
  split; [|split].
  - intros o. destruct (App.isInitializing st); [discriminate|].
    destruct (App.view st); try discriminate.
    + destruct Hok as [u ->]. intros [= <-]. eauto.
    + destruct Hok as (u & -> & R). rewrite R. simpl. discriminate.
  - intros u. destruct (App.isInitializing st); [discriminate|].
    destruct (App.view st); try discriminate.
    + destruct (App.currentUser st); discriminate.
    + destruct Hok as (a & -> & R). rewrite R. simpl.
      intros [= <-]. auto.
  - intros b u R. simpl. destruct b; [reflexivity|].
    destruct (role u); [reflexivity|congruence].
Qed.

Lemma screen_preconditions_witness :
  App.render (App.mkState
                (Some (the_admin "2024-05-01T08:00:00.000Z")) App.admin
                false)
  = App.AdminDashboard (the_admin "2024-05-01T08:00:00.000Z")
  /\ role (the_admin "2024-05-01T08:00:00.000Z") = ADMIN.
Proof.
  split; [reflexivity|].
  refine (proj2 (proj1 (proj2
    (screen_preconditions
       (App.mkState (Some (the_admin "2024-05-01T08:00:00.000Z"))
          App.admin false) _))
    (the_admin "2024-05-01T08:00:00.000Z") eq_refl)).
  apply (App.reachable_step App.initial); [apply App.reachable_initial|].
  apply (App.step_initApp "2024-05-01T08:00:00.000Z" (Some "admin-1") None
           _ _ (seeded "2024-05-01T08:00:00.000Z" None)).
  reflexivity.
Defined.

(* ------------------------------------------------------------------ *)
(** * The speech adapter *)

Lemma no_inline_data_no_payload
    (response : GeminiService.GenerateContentResponse) :
  GeminiService.has_inline_data response = false ->
  GeminiService.first_inline_data response = None.
Proof.
  unfold GeminiService.has_inline_data, GeminiService.first_inline_data.
  destruct response as [[[|c cs]|]]; simpl; try reflexivity.
  destruct c as [[[[[|q ps]|]]|]]; simpl; try reflexivity.
  destruct q as [[b|] t]; simpl; [discriminate|reflexivity].
Qed.

(** The claim C8 as the specification states it fails on
    [later_audio_response]: the response holds an audio payload, in its
    second part, and the speech operation, which reads the first part
    only, returns the empty string. *)
Lemma speech_ignores_later_part :
  ~ speech_returns_payload
      (fun _ => GeminiService.ApiOk later_audio_response)
      "This is a Beagle.".
Proof.
  intros H. specialize (H later_audio_response eq_refl).
  vm_compute in H. discriminate H.
Qed.

(** C8 (amended).  Whenever the call to the hosted model resolves, the
    speech operation resolves as well, for every text, and never throws
    on the shape of the response.  It resolves to the encoded payload when
    the first part of the first candidate carries it as inline data; in
    every other case it resolves to the empty string: when that first part
    carries no inline data, whatever the later parts hold, and in
    particular when no part of the response carries inline data. *)
Theorem speech_payload_or_empty
    (generateContent :
       GeminiService.SpeechRequest ->
       GeminiService.ApiResult GeminiService.GenerateContentResponse)
    (txt : string) (response : GeminiService.GenerateContentResponse) :
  generateContent
    (GeminiService.mkSpeechRequest "gemini-2.5-flash-preview-tts" txt
       ["AUDIO"] "Kore")
  = GeminiService.ApiOk response ->
  (forall blob d t ps others,
     GeminiService.candidates response
     = Some (GeminiService.mkCandidate
               (Some (GeminiService.mkContent
                        (Some (GeminiService.mkPart (Some blob) t :: ps))))
             :: others) ->
     GeminiService.data blob = Some d ->
     GeminiService.generateBreedAudio generateContent txt
     = GeminiService.ApiOk d)
  /\ ((forall blob d t ps others,
         GeminiService.candidates response
         = Some (GeminiService.mkCandidate
                   (Some (GeminiService.mkContent
                            (Some (GeminiService.mkPart (Some blob) t
                                   :: ps))))
                 :: others) ->
         GeminiService.data blob <> Some d) ->
      GeminiService.generateBreedAudio generateContent txt
      = GeminiService.ApiOk "")
  /\ (forall t ps others,
        GeminiService.candidates response
        = Some (GeminiService.mkCandidate
                  (Some (GeminiService.mkContent
                           (Some (GeminiService.mkPart None t :: ps))))
                :: others) ->
        GeminiService.generateBreedAudio generateContent txt
        = GeminiService.ApiOk "")
  /\ (GeminiService.has_inline_data response = false ->
      GeminiService.generateBreedAudio generateContent txt
      = GeminiService.ApiOk "").
Proof.
  intros Hcall. unfold GeminiService.generateBreedAudio. rewrite Hcall.
  unfold GeminiService.first_inline_data.
  split; [|split; [|split]].
  - intros blob d t ps others -> Hd. simpl. rewrite Hd. simpl.
    unfold Js.truthy. destruct (String.eqb d "") eqn:Ed; simpl;
      [|reflexivity].
    apply String.eqb_eq in Ed. now subst.
  - intros Hshape.
    destruct response as [[[|[[[[[|[[blob|] t] ps]|]]|]] others]|]];
      simpl; try reflexivity.
    destruct (GeminiService.data blob) as [d|] eqn:Ed; [|reflexivity].
    destruct (Hshape blob d t ps others eq_refl Ed).
  - intros t ps others ->. reflexivity.
  - intros H. pose proof (no_inline_data_no_payload _ H) as N.
    unfold GeminiService.first_inline_data in N. now rewrite N.
Qed.

Lemma speech_payload_or_empty_witness :
  GeminiService.generateBreedAudio
    (fun _ =>
       GeminiService.ApiOk
         (GeminiService.mkResponse
            (Some [GeminiService.mkCandidate
                     (Some (GeminiService.mkContent
                              (Some [GeminiService.mkPart
                                       (Some (GeminiService.mkBlob
                                                (Some "UklGRg==")
                                                (Some "audio/L16")))
                                       None])))])))
    "This is a Beagle."
  = GeminiService.ApiOk "UklGRg=="
  /\ GeminiService.generateBreedAudio
       (fun _ => GeminiService.ApiOk later_audio_response)
       "This is a Beagle."
     = GeminiService.ApiOk "".
Proof.
  split.
  - apply (proj1 (speech_payload_or_empty
                    (fun _ =>
                       GeminiService.ApiOk
                         (GeminiService.mkResponse
                            (Some [GeminiService.mkCandidate
                                     (Some (GeminiService.mkContent
                                              (Some [GeminiService.mkPart
                                                       (Some
                                                          (GeminiService.mkBlob
                                                             (Some "UklGRg==")
                                                             (Some
                                                                "audio/L16")))
                                                       None])))])))
                    "This is a Beagle." _ eq_refl)
             (GeminiService.mkBlob (Some "UklGRg==") (Some "audio/L16"))
             "UklGRg==" None [] []);
      reflexivity.
  - apply (proj1 (proj2 (proj2 (speech_payload_or_empty
                    (fun _ => GeminiService.ApiOk later_audio_response)
                    "This is a Beagle." _ eq_refl)))
             (Some "Here is the narration.")
             [GeminiService.mkPart
                (Some (GeminiService.mkBlob (Some "UklGRg==")
                         (Some "audio/L16")))
                None]
             []).
    reflexivity.
Defined.

(* ------------------------------------------------------------------ *)
(** * The login form *)

Lemma unique_index_get {A} (ix : A -> string) (l : list A) (r : A) :
  uniqueb ix l = true -> In r l -> index_get ix (ix r) l = Some r.
Proof.
  intros Huni Hin. unfold index_get. apply find_the_one; [assumption|].
  intros x Hx E.
  assert (Hf : In x (filter (fun y => String.eqb (ix y) (ix r)) l)).
  { apply filter_In. split; [assumption|now apply String.eqb_eq]. }
  rewrite (uniqueb_count ix l r Huni Hin) in Hf.
  destruct Hf as [Hf|[]]. now symmetry.
Qed.

Lemma handleSubmit_lookup (db : IDBDatabase) (e p : string) :
  e <> adminEmail ->
  Login.handleSubmit e p db
  = (Resolved
       match index_get email e (users db) with
       | Some u => Login.onLogin u
       | None =>
           Login.setError
             "Invalid email or password. Use 'admin@breedfinder.com' / 'admin123' for testing admin."
       end, db).
Proof.
  intros Hne. unfold Login.handleSubmit, try_catch, await, getUserByEmail,
    init, ret.
  apply String.eqb_neq in Hne. unfold adminEmail in Hne. rewrite Hne.
  simpl. destruct (index_get email e (users db)); reflexivity.
Qed.

(** C9.  For an email other than the administrator's, the outcome of
    submitting the login form is the same for any two passwords; and for
    every identity stored under such an email the submission logs that
    identity in, whatever the password. *)
Theorem login_ignores_password (db : IDBDatabase) (u : User)
    (p1 p2 : string) :
  store_ok db = true -> In u (users db) -> email u <> adminEmail ->
  Login.handleSubmit (email u) p1 db = Login.handleSubmit (email u) p2 db
  /\ Login.handleSubmit (email u) p1 db = (Resolved (Login.onLogin u), db).
Proof.
  intros Hok Hin Hne. rewrite !handleSubmit_lookup by assumption.
  split; [reflexivity|].
  unfold store_ok in Hok. apply andb_true_iff in Hok as [Hok _].
  apply andb_true_iff in Hok as [_ Huni].
  now rewrite (unique_index_get email _ u Huni Hin).
Qed.

Lemma login_ignores_password_witness :
  Login.handleSubmit "a@x.com" "secret" undated_db
  = Login.handleSubmit "a@x.com" "" undated_db
  /\ Login.handleSubmit "a@x.com" "secret" undated_db
     = (Resolved (Login.onLogin (sample_user "u1" "a@x.com" USER)),
        undated_db).
Proof.
  apply (login_ignores_password undated_db
           (sample_user "u1" "a@x.com" USER) "secret" "").
  - reflexivity.
  - left. reflexivity.
  - discriminate.
Defined.

(* ------------------------------------------------------------------ *)
(** * The dashboard: mutating the current scan *)

Lemma saveScanToDB_puts (r : BreedResult) (db : IDBDatabase) :
  Dashboard.saveScanToDB r db
  = (Resolved tt, mkDB (users db) (put br_id r (scans db))).
Proof. reflexivity. Qed.

(** C10.  Attaching a health analysis to the current scan stores, and
    makes current, a record whose health analysis is the new one and
    whose every other field is that of the scan before; the purchase
    stores, and makes current, a record whose purchased flag is true and
    whose every other field is that of the scan before.  In both cases the
    record is found in the store under the id of the scan. *)
Theorem scan_mutation_frame
    (detectAnimalDiseases :
       string -> string ->
       GeminiService.ApiResult HealthAnalysisResponse)
    (st : Dashboard.State) (db : IDBDatabase) (img : string)
    (cur : BreedResult) (analysis : HealthAnalysisResponse) :
  Dashboard.currentResult st = Some cur ->
  (Dashboard.selectedImage st = Some img -> img <> "" ->
   detectAnimalDiseases img (animalType cur) = GeminiService.ApiOk analysis ->
   exists st' db' r,
     Dashboard.handleHealthCheck detectAnimalDiseases st db
     = (Resolved st', db')
     /\ Dashboard.currentResult st' = Some r
     /\ get br_id (br_id cur) (scans db') = Some r
     /\ healthAnalysis r = Some analysis
     /\ same_but_healthAnalysis cur r)
  /\ (exists st' db' r,
        Dashboard.handlePurchase st db = (Resolved st', db')
        /\ Dashboard.currentResult st' = Some r
        /\ get br_id (br_id cur) (scans db') = Some r
        /\ isPurchased r = Some true
        /\ same_but_isPurchased cur r).
Proof.
  intros Hcur. split.
  - intros Himg Hne Hcall.
    unfold Dashboard.handleHealthCheck. rewrite Himg, Hcur.
    assert (T : Js.truthy img = true).
    { unfold Js.truthy. apply negb_true_iff. now apply String.eqb_neq. }
    rewrite T, Hcall. unfold await. rewrite saveScanToDB_puts.
    do 3 eexists. split; [reflexivity|]. simpl.
    split; [reflexivity|]. split.
    + apply (get_put_same br_id (spread_healthAnalysis cur analysis)).
    + split; [reflexivity|]. repeat split.
  - unfold Dashboard.handlePurchase. rewrite Hcur.
    unfold await. rewrite saveScanToDB_puts.
    do 3 eexists. split; [reflexivity|]. simpl.
    split; [reflexivity|]. split.
    + apply (get_put_same br_id (spread_isPurchased cur true)).
    + split; [reflexivity|]. repeat split.
Qed.

Lemma scan_mutation_frame_witness :
  exists st' db' r,
    Dashboard.handlePurchase
      (Dashboard.mkState (Some "data:image/jpeg;base64,AAAA")
         (Some (sample_scan "s1" "u1" "2024-03-01T12:30:15.250Z"))
         None None [] false)
      (mkDB [] [sample_scan "s1" "u1" "2024-03-01T12:30:15.250Z"])
    = (Resolved st', db')
    /\ Dashboard.currentResult st' = Some r
    /\ get br_id "s1" (scans db') = Some r
    /\ isPurchased r = Some true
    /\ same_but_isPurchased
         (sample_scan "s1" "u1" "2024-03-01T12:30:15.250Z") r.
Proof.
  apply (scan_mutation_frame
           (fun _ _ => GeminiService.ApiError "offline")
           (Dashboard.mkState (Some "data:image/jpeg;base64,AAAA")
              (Some (sample_scan "s1" "u1" "2024-03-01T12:30:15.250Z"))
              None None [] false)
           (mkDB [] [sample_scan "s1" "u1" "2024-03-01T12:30:15.250Z"])
           "data:image/jpeg;base64,AAAA"
           (sample_scan "s1" "u1" "2024-03-01T12:30:15.250Z")
           (mkHealthAnalysis [] "Healthy" true)).
  reflexivity.
Defined.

(* ------------------------------------------------------------------ *)
(** * The store invariant is kept by every operation *)

Lemma store_ok_fresh : store_ok onupgradeneeded = true.
Proof. reflexivity. Qed.

Lemma store_ok_saveUser (u : User) (db : IDBDatabase) :
  store_ok db = true -> store_ok (after (saveUser u) db) = true.
Proof.
  unfold store_ok, after, saveUser, await, init, ret, put_unique. simpl.
  intros H. destruct (violates_unique id email u (users db)) eqn:V;
    simpl; [assumption|].
  apply andb_true_iff in H as [H Hs]. apply andb_true_iff in H as [Ha Hu].
  rewrite (ascendingb_put id u _ Ha), (uniqueb_put id email u _ Ha Hu V), Hs.
  reflexivity.
Qed.

Lemma store_ok_saveScan (s : BreedResult) (db : IDBDatabase) :
  store_ok db = true -> store_ok (after (saveScan s) db) = true.
Proof.
  unfold store_ok, after, saveScan, await, init, ret. simpl.
  intros H. apply andb_true_iff in H as [H Hs]. rewrite H. simpl.
  now apply ascendingb_put.
Qed.

Lemma store_ok_deleteScan (k : string) (db : IDBDatabase) :
  store_ok db = true -> store_ok (after (deleteScan k) db) = true.
Proof.
  unfold store_ok, after, deleteScan, await, init, ret. simpl.
  intros H. apply andb_true_iff in H as [H Hs]. rewrite H. simpl.
  now apply ascendingb_filter.
Qed.

Lemma store_ok_seedAdmin (now : string) (db : IDBDatabase) :
  store_ok db = true -> store_ok (after (seedAdmin now) db) = true.
Proof.
  intros H. unfold after.
  destruct (index_get email adminEmail (users db)) eqn:E.
  - now rewrite (seedAdmin_present _ _ _ E).
  - pose proof (store_ok_saveUser (the_admin now) db H) as S.
    rewrite (seedAdmin_absent _ _ E). simpl.
    unfold after, saveUser, await, init, ret, put_unique in S. simpl in S.
    assert (V : violates_unique id email (the_admin now) (users db) = false).
    { apply violates_unique_false. intros x Hx Ex.
      destruct (index_get_None email adminEmail _ E x Hx). exact Ex. }
    rewrite V in S. exact S.
Qed.

(* ------------------------------------------------------------------ *)
(** * The date reader on sample inputs *)

Example Date_getTime_epoch {E : Js.Engine} :
  Js.Date_getTime "1970-01-01T00:00:00.000Z" = Some 0%Z.
Proof. reflexivity. Qed.

Example Date_getTime_2024 {E : Js.Engine} :
  Js.Date_getTime "2024-03-01T12:30:15.250Z" = Some 1709296215250%Z.
Proof. reflexivity. Qed.

(** A string without a digit is a date on no engine; a string of the
    standard shape that names no day of the calendar is left to the
    engine. *)
Example Date_getTime_invalid {E : Js.Engine} :
  Js.Date_getTime "" = None /\ Js.Date_getTime "yesterday" = None
  /\ Js.Date_getTime "2023-02-29T00:00:00.000Z"
     = Js.Date_parse_other "2023-02-29T00:00:00.000Z".
Proof. repeat split; reflexivity. Qed.

(** With a record that has no time value between two dated ones, the
    comparator answers NaN for each neighbouring pair and the sort leaves
    the older dated record ahead of the newer. *)
Example Array_sort_undated_between {E : Js.Engine} :
  Js.Array_sort newest_first
    [sample_scan "a" "u1" "2024-03-01T12:30:15.250Z";
     sample_scan "b" "u1" "yesterday";
     sample_scan "c" "u1" "2024-03-02T09:00:00.000Z"]
  = [sample_scan "a" "u1" "2024-03-01T12:30:15.250Z";
     sample_scan "b" "u1" "yesterday";
     sample_scan "c" "u1" "2024-03-02T09:00:00.000Z"].
Proof. reflexivity. Qed.

(* ------------------------------------------------------------------ *)
(** * More on the store: lookups, frames, listings *)

Lemma get_put_other {A} (key : A -> string) (r : A) (k : string)
    (l : list A) :
  k <> key r -> get key k (put key r l) = get key k l.
Proof.
  intros Hk. unfold get.
  assert (Hr : String.eqb (key r) k = false)
    by (apply String.eqb_neq; congruence).
  induction l as [|y l IH]; simpl.
  - now rewrite Hr.
  - destruct (String.compare (key r) (key y)) eqn:E; simpl.
    + apply String.compare_eq_iff in E. now rewrite Hr, <- E, Hr.
    + now rewrite Hr.
    + now rewrite IH.
Qed.

Lemma saveUser_cases (u : User) (db : IDBDatabase) :
  (violates_unique id email u (users db) = false
   /\ saveUser u db
      = (Resolved tt, mkDB (put id u (users db)) (scans db)))
  \/ (violates_unique id email u (users db) = true
      /\ saveUser u db = (Rejected ConstraintError, db)).
Proof.
  unfold saveUser, await, init, ret, put_unique. simpl.
  destruct (violates_unique id email u (users db)); auto.
Qed.

(** X1.  An identity that [saveUser] accepted into a well-formed store
    is found again both by its id and by its email. *)
Theorem saved_identity_found (db : IDBDatabase) (u : User) :
  store_ok db = true -> outcome (saveUser u) db = Resolved tt ->
  outcome (getUser (id u)) (after (saveUser u) db) = Resolved (Some u)
  /\ outcome (getUserByEmail (email u)) (after (saveUser u) db)
     = Resolved (Some u).
Proof.
  intros Hok Hres. unfold outcome, after in *.
  destruct (saveUser_cases u db) as [[V E]|[V E]]; rewrite E in *;
    [|discriminate].
  unfold store_ok in Hok. apply andb_true_iff in Hok as [Hok _].
  apply andb_true_iff in Hok as [Hasc Huni].
  unfold getUser, getUserByEmail, await, init, ret. simpl. split.
  - now rewrite get_put_same.
  - rewrite (unique_index_get email (put id u (users db)) u);
      [reflexivity| |apply put_In].
    now apply uniqueb_put.
Qed.

Lemma saved_identity_found_witness :
  outcome (getUser "u2")
    (after (saveUser (sample_user "u2" "b@x.com" USER)) undated_db)
  = Resolved (Some (sample_user "u2" "b@x.com" USER))
  /\ outcome (getUserByEmail "b@x.com")
       (after (saveUser (sample_user "u2" "b@x.com" USER)) undated_db)
     = Resolved (Some (sample_user "u2" "b@x.com" USER)).
Proof.
  apply (saved_identity_found undated_db (sample_user "u2" "b@x.com" USER));
    reflexivity.
Defined.

(** X2.  [saveUser] touches the record under its own id only: every
    other id reads as before, the scans are as before, and a rejected
    save leaves the whole database as it was. *)
Theorem saveUser_frame (db : IDBDatabase) (u : User) (k : string) :
  k <> id u ->
  outcome (getUser k) (after (saveUser u) db) = outcome (getUser k) db
  /\ scans (after (saveUser u) db) = scans db
  /\ (outcome (saveUser u) db = Rejected ConstraintError ->
      after (saveUser u) db = db).
Proof.
  intros Hk. unfold outcome, after.
  destruct (saveUser_cases u db) as [[V E]|[V E]]; rewrite E; simpl.
  - unfold getUser, await, init, ret. simpl.
    rewrite (get_put_other id u k _ Hk). repeat split. discriminate.
  - repeat split.
Qed.

Lemma saveUser_frame_witness :
  outcome (getUser "u1")
    (after (saveUser (sample_user "u2" "b@x.com" USER)) undated_db)
  = outcome (getUser "u1") undated_db.
Proof.
  apply (saveUser_frame undated_db (sample_user "u2" "b@x.com" USER) "u1").
  discriminate.
Defined.

(** X3.  Every mutation of the wrapper keeps a well-formed store
    well-formed: ids ascending and unique in both stores, emails unique
    among the identities. *)
Theorem store_ok_kept (db : IDBDatabase) (u : User) (s : BreedResult)
    (k now : string) :
  store_ok db = true ->
  store_ok (after (saveUser u) db) = true
  /\ store_ok (after (saveScan s) db) = true
  /\ store_ok (after (deleteScan k) db) = true
  /\ store_ok (after (seedAdmin now) db) = true.
Proof.
  intros H. repeat split.
  - now apply store_ok_saveUser.
  - now apply store_ok_saveScan.
  - now apply store_ok_deleteScan.
  - now apply store_ok_seedAdmin.
Qed.

Lemma store_ok_kept_witness :
  store_ok (after (saveUser (sample_user "u1" "c@x.com" ADMIN)) undated_db)
  = true
  /\ store_ok (after (saveScan scan_with_extras) undated_db) = true
  /\ store_ok (after (deleteScan "s1") undated_db) = true
  /\ store_ok (after (seedAdmin "2024-05-01T08:00:00.000Z") undated_db)
     = true.
Proof.
  apply (store_ok_kept undated_db (sample_user "u1" "c@x.com" ADMIN)
           scan_with_extras "s1" "2024-05-01T08:00:00.000Z").
  reflexivity.
Defined.

(** X4.  The listing of all scans resolves to a rearrangement of the
    whole scans store, and to the newest-first one when every stored
    timestamp parses as a date. *)
Theorem all_listing_newest_first {E : Js.Engine} (db : IDBDatabase) :
  exists l,
    outcome getAllScans db = Resolved l
    /\ Permutation l (scans db)
    /\ (Forall valid_time (scans db) -> newest_to_oldest l).
Proof.
  exists (Js.Array_sort newest_first (scans db)).
  split; [reflexivity|]. split.
  - apply Array_sort_perm.
  - apply Array_sort_sorted.
Qed.

Lemma all_listing_newest_first_witness :
  (newest_to_oldest (E := Js.standard_only))
    ((all_listing (E := Js.standard_only))
       (mkDB [] [sample_scan "s1" "u1" "2024-03-01T12:30:15.250Z";
                 sample_scan "s3" "u2" "2024-03-02T09:00:00.000Z"])).
Proof.
  destruct (all_listing_newest_first (E := Js.standard_only)
              (mkDB [] [sample_scan "s1" "u1" "2024-03-01T12:30:15.250Z";
                        sample_scan "s3" "u2" "2024-03-02T09:00:00.000Z"]))
    as (l & Hl & _ & Hs).
  unfold all_listing. rewrite Hl. apply Hs.
  repeat constructor; discriminate.
Defined.

(** X5.  After [deleteScan k] a scan is in a listing exactly when it
    was there before and its id is not [k]; the identities are
    untouched. *)
Theorem deleted_scan_gone {E : Js.Engine} (db : IDBDatabase) (k u : string)
    (s : BreedResult) :
  (In s (owner_listing u (after (deleteScan k) db))
   <-> In s (owner_listing u db) /\ br_id s <> k)
  /\ (In s (all_listing (after (deleteScan k) db))
      <-> In s (all_listing db) /\ br_id s <> k)
  /\ users (after (deleteScan k) db) = users db.
Proof.
  unfold owner_listing, all_listing, outcome, after, getUserScans,
    getAllScans, deleteScan, await, init, ret, index_getAll, getAll, delete.
  simpl.
  assert (K : negb (String.eqb (br_id s) k) = true <-> br_id s <> k).
  { rewrite negb_true_iff. apply String.eqb_neq. }
  split; [|split; [|reflexivity]].
  - split.
    + intros H. eapply Permutation_in in H; [|apply Array_sort_perm].
      apply filter_In in H as [H O]. apply filter_In in H as [H N].
      split; [|now apply K].
      eapply Permutation_in; [apply Permutation_sym, Array_sort_perm|].
      apply filter_In. auto.
    + intros [H N]. eapply Permutation_in in H; [|apply Array_sort_perm].
      apply filter_In in H as [H O].
      eapply Permutation_in; [apply Permutation_sym, Array_sort_perm|].
      apply filter_In. split; [|assumption].
      apply filter_In. split; [assumption|now apply K].
  - split.
    + intros H. eapply Permutation_in in H; [|apply Array_sort_perm].
      apply filter_In in H as [H N]. split; [|now apply K].
      eapply Permutation_in; [apply Permutation_sym, Array_sort_perm|].
      assumption.
    + intros [H N]. eapply Permutation_in in H; [|apply Array_sort_perm].
      eapply Permutation_in; [apply Permutation_sym, Array_sort_perm|].
      apply filter_In. split; [assumption|now apply K].
Qed.

Lemma put_fresh_split {A} (key : A -> string) (r : A) (l : list A) :
  get key (key r) l = None ->
  exists l1 l2, l = l1 ++ l2 /\ put key r l = l1 ++ r :: l2.
Proof.
  unfold get. induction l as [|y l IH]; simpl; intros H.
  - exists [], []. split; reflexivity.
  - destruct (String.eqb (key y) (key r)) eqn:K; [discriminate|].
    destruct (String.compare (key r) (key y)) eqn:E.
    + apply String.compare_eq_iff in E.
      rewrite E, String.eqb_refl in K. discriminate.
    + exists [], (y :: l). split; reflexivity.
    + destruct (IH H) as (l1 & l2 & -> & ->).
      exists (y :: l1), l2. split; reflexivity.
Qed.

Lemma sort_insert_front {E : Js.Engine}
    (s : BreedResult) (t : Z) (l : list BreedResult) :
  time_of s = Some t -> Forall (older_than t) l ->
  Js.sort_insert newest_first s l = s :: l.
Proof.
  intros Es Hl. destruct l as [|y l]; [reflexivity|].
  inversion Hl as [|? ? (ty & Ey & Hlt) _]; subst. simpl.
  unfold Js.SortCompare, newest_first.
  fold (time_of y). fold (time_of s). rewrite Es, Ey. simpl.
  destruct (0 <? ty - t)%Z eqn:C; [apply Z.ltb_lt in C; lia|reflexivity].
Qed.

Lemma sort_insert_under {E : Js.Engine}
    (x s : BreedResult) (t : Z) (l : list BreedResult) :
  time_of s = Some t -> older_than t x ->
  Js.sort_insert newest_first x (s :: l)
  = s :: Js.sort_insert newest_first x l.
Proof.
  intros Es (tx & Ex & Hlt). simpl.
  unfold Js.SortCompare, newest_first at 1.
  fold (time_of x). fold (time_of s). rewrite Es, Ex. simpl.
  destruct (0 <? t - tx)%Z eqn:C; [reflexivity|apply Z.ltb_ge in C; lia].
Qed.

Lemma Array_sort_newest_front {E : Js.Engine} (s : BreedResult) (t : Z)
    (l1 l2 : list BreedResult) :
  time_of s = Some t ->
  Forall (older_than t) l1 -> Forall (older_than t) l2 ->
  Js.Array_sort newest_first (l1 ++ s :: l2)
  = s :: Js.Array_sort newest_first (l1 ++ l2).
Proof.
  intros Es H1 H2. induction l1 as [|x l1 IH]; simpl.
  - apply (sort_insert_front s t); [assumption|].
    apply (Permutation_Forall
             (Permutation_sym (Array_sort_perm newest_first l2))).
    assumption.
  - inversion H1; subst. rewrite IH by assumption.
    now apply (sort_insert_under x s t).
Qed.

(** X6.  A scan stored under an id the store does not hold yet, with a
    time later than that of every scan its owner has, comes first in the
    owner's listing, ahead of the listing as it was. *)
Theorem new_scan_listed_first {E : Js.Engine}
    (db : IDBDatabase) (s : BreedResult) (t : Z) :
  get br_id (br_id s) (scans db) = None ->
  time_of s = Some t ->
  Forall (older_than t) (filter (owned_by (userId s)) (scans db)) ->
  owner_listing (userId s) (after (saveScan s) db)
  = s :: owner_listing (userId s) db.
Proof.
  intros Hfresh Es Hold.
  unfold owner_listing, outcome, after, getUserScans, saveScan, await, init,
    ret, index_getAll. simpl.
  change (fun x : BreedResult => String.eqb (userId x) (userId s))
    with (owned_by (userId s)).
  destruct (put_fresh_split br_id s (scans db) Hfresh)
    as (l1 & l2 & Hl & Hput).
  rewrite Hput, Hl in *. rewrite !filter_app in *. simpl.
  replace (owned_by (userId s) s) with true
    by (symmetry; apply String.eqb_refl).
  apply Forall_app in Hold as [H1 H2].
  now apply (Array_sort_newest_front s t).
Qed.

Lemma new_scan_listed_first_witness :
  (owner_listing (E := Js.standard_only)) "u1"
    (after (saveScan (sample_scan "s0" "u1" "2024-03-02T09:00:00.000Z"))
       (mkDB [] [sample_scan "s1" "u1" "2024-03-01T12:30:15.250Z";
                 sample_scan "s2" "u2" "yesterday"]))
  = sample_scan "s0" "u1" "2024-03-02T09:00:00.000Z"
    :: (owner_listing (E := Js.standard_only)) "u1"
         (mkDB [] [sample_scan "s1" "u1" "2024-03-01T12:30:15.250Z";
                   sample_scan "s2" "u2" "yesterday"]).
Proof.
  apply (new_scan_listed_first (E := Js.standard_only)
           (mkDB [] [sample_scan "s1" "u1" "2024-03-01T12:30:15.250Z";
                     sample_scan "s2" "u2" "yesterday"])
           (sample_scan "s0" "u1" "2024-03-02T09:00:00.000Z")
           1709370000000%Z).
  - reflexivity.
  - reflexivity.
  - constructor; [|constructor].
    exists 1709296215250%Z. split; [reflexivity|lia].
Defined.

(* ------------------------------------------------------------------ *)
(** * More on the login form *)

Lemma handleSubmit_any (db : IDBDatabase) (e p : string) :
  Login.handleSubmit e p db
  = (Resolved
       match index_get email e (users db) with
       | Some u => Login.onLogin u
       | None =>
           Login.setError
             "Invalid email or password. Use 'admin@breedfinder.com' / 'admin123' for testing admin."
       end, db).
Proof.
  unfold Login.handleSubmit, try_catch, await, getUserByEmail, init, ret.
  destruct (String.eqb e "admin@breedfinder.com") eqn:E; simpl.
  - apply String.eqb_eq in E. subst e.
    destruct (String.eqb p "admin123"); simpl;
      destruct (index_get email "admin@breedfinder.com" (users db)) eqn:F;
      simpl; rewrite ?F; reflexivity.
  - destruct (index_get email e (users db)); reflexivity.
Qed.

(** X7.  The login form never checks the password, for the
    administrator's email no more than for another: two submissions with
    the same email end alike whatever the passwords.  A submission leaves
    the store as it was, logs in only an identity that is stored under
    exactly the email submitted, and reports an error when no identity
    has that email. *)
Theorem login_depends_on_email_only (db : IDBDatabase) (e p1 p2 : string) :
  Login.handleSubmit e p1 db = Login.handleSubmit e p2 db
  /\ after (Login.handleSubmit e p1) db = db
  /\ (forall u, outcome (Login.handleSubmit e p1) db
                = Resolved (Login.onLogin u) ->
                In u (users db) /\ email u = e)
  /\ ((forall u, In u (users db) -> email u <> e) ->
      exists message,
        outcome (Login.handleSubmit e p1) db
        = Resolved (Login.setError message)).
Proof.
  unfold outcome, after. rewrite !handleSubmit_any. simpl.
  split; [reflexivity|]. split; [reflexivity|]. split.
  - intros u H. destruct (index_get email e (users db)) as [x|] eqn:E;
      [|discriminate].
    injection H as ->. now apply index_get_Some in E.
  - intros Hnone. destruct (index_get email e (users db)) as [x|] eqn:E;
      [|eauto].
    apply index_get_Some in E as [Hin Hem]. destruct (Hnone x Hin Hem).
Qed.

Lemma login_depends_on_email_only_witness :
  exists message,
    outcome (Login.handleSubmit "nobody@x.com" "secret") undated_db
    = Resolved (Login.setError message).
Proof.
  apply (login_depends_on_email_only undated_db "nobody@x.com" "secret"
           "secret").
  intros u [<-|[]]. discriminate.
Defined.

(** X8.  After the seeding of a process start the administrator's
    email logs in with any password; on a first start, where the origin
    had no database, the identity logged in is the seeded administrator,
    with the administrator role. *)
Theorem admin_login_any_password (disk : option IDBDatabase)
    (now password : string) :
  exists a,
    Login.handleSubmit adminEmail password (seeded now disk)
    = (Resolved (Login.onLogin a), seeded now disk)
    /\ email a = adminEmail
    /\ (disk = None -> a = the_admin now /\ role a = ADMIN).
Proof.
  rewrite handleSubmit_any. unfold seeded.
  destruct (seedAdmin_seeds (open disk) now) as [a Ha].
  exists a. rewrite Ha. split; [reflexivity|]. split.
  - now apply index_get_Some in Ha.
  - intros ->. simpl in Ha. injection Ha as <-. split; reflexivity.
Qed.

Lemma admin_login_any_password_witness :
  Login.handleSubmit adminEmail "guess"
    (seeded "2024-05-01T08:00:00.000Z" None)
  = (Resolved (Login.onLogin (the_admin "2024-05-01T08:00:00.000Z")),
     seeded "2024-05-01T08:00:00.000Z" None).
Proof.
  destruct (admin_login_any_password None "2024-05-01T08:00:00.000Z" "guess")
    as (a & Hrun & _ & Hfresh).
  destruct (Hfresh eq_refl) as [<- _]. exact Hrun.
Defined.

(* ------------------------------------------------------------------ *)
(** * The signup form *)

Lemma put_elems_strict {A} (key : A -> string) (r y : A) (l : list A) :
  ascendingb key l = true -> In y (put key r l) ->
  y = r \/ (In y l /\ key y <> key r).
Proof.
  induction l as [|z l IH]; simpl.
  - intros _ [->|[]]. now left.
  - intros H. apply andb_true_iff in H as [Hz Hl].
    rewrite forallb_forall in Hz.
    destruct (String.compare (key r) (key z)) eqn:E; simpl.
    + apply String.compare_eq_iff in E. intros [->|Hy]; [now left|].
      right. split; [now right|]. intros K.
      specialize (Hz y Hy). rewrite K, E, ltb_irrefl in Hz. discriminate.
    + apply ltb_Lt in E. intros [->|[->|Hy]]; [now left| |].
      * right. split; [now left|]. intros K.
        rewrite K, ltb_irrefl in E. discriminate.
      * right. split; [now right|]. intros K.
        pose proof (ltb_trans _ _ _ E (Hz y Hy)) as T.
        rewrite K, ltb_irrefl in T. discriminate.
    + intros [->|Hy].
      * right. split; [now left|]. intros K.
        rewrite K, compare_refl in E. discriminate.
      * destruct (IH Hl Hy) as [->|[Hin K]]; [now left|].
        right. split; [now right|assumption].
Qed.

Lemma signup_accepts (db : IDBDatabase) (n e p rnd now : string) :
  (6 <= String.length p)%nat ->
  index_get email e (users db) = None ->
  Signup.handleSubmit n e p rnd now db
  = (Resolved (Signup.onSignup (mkUser rnd n e USER now)),
     mkDB (put id (mkUser rnd n e USER now) (users db)) (scans db)).
Proof.
  intros Hlen Hfree. unfold Signup.handleSubmit.
  replace (String.length p <? 6)%nat with false
    by (symmetry; apply Nat.ltb_ge; assumption).
  assert (V : violates_unique id email (mkUser rnd n e USER now) (users db)
              = false).
  { apply violates_unique_false. intros x Hx Ex.
    destruct (index_get_None email e _ Hfree x Hx). exact Ex. }
  unfold try_catch, await.
  change (getUserByEmail e db)
    with (Resolved (index_get email e (users db)), db).
  rewrite Hfree.
  destruct (saveUser_cases (mkUser rnd n e USER now) db) as [[_ E]|[V' _]];
    [|congruence].
  now rewrite E.
Qed.

(** X9.  The signup form refuses a password of fewer than six
    characters, and an email that an identity already holds, with its two
    messages; in both cases nothing is written to the store. *)
Theorem signup_refused (db : IDBDatabase) (n e p rnd now : string) :
  ((String.length p < 6)%nat ->
   Signup.handleSubmit n e p rnd now db
   = (Resolved
        (Signup.setError "Password must be at least 6 characters long."),
      db))
  /\ (forall x, (6 <= String.length p)%nat ->
                index_get email e (users db) = Some x ->
                Signup.handleSubmit n e p rnd now db
                = (Resolved
                     (Signup.setError
                        "An account with this email already exists."),
                   db)).
Proof.
  unfold Signup.handleSubmit. split.
  - intros H. apply Nat.ltb_lt in H. now rewrite H.
  - intros x H Hx. apply Nat.ltb_ge in H. rewrite H.
    unfold try_catch, await, getUserByEmail, init, ret. simpl.
    now rewrite Hx.
Qed.

Lemma signup_refused_witness :
  Signup.handleSubmit "Ann" "new@x.com" "12345" "k3j9x0q2a"
    "2024-05-01T08:00:00.000Z" undated_db
  = (Resolved
       (Signup.setError "Password must be at least 6 characters long."),
     undated_db)
  /\ Signup.handleSubmit "Ann" "a@x.com" "123456" "k3j9x0q2a"
       "2024-05-01T08:00:00.000Z" undated_db
     = (Resolved
          (Signup.setError "An account with this email already exists."),
        undated_db).
Proof.
  split.
  - apply (signup_refused undated_db "Ann" "new@x.com" "12345" "k3j9x0q2a"
             "2024-05-01T08:00:00.000Z").
    simpl. lia.
  - apply (proj2 (signup_refused undated_db "Ann" "a@x.com" "123456"
                    "k3j9x0q2a" "2024-05-01T08:00:00.000Z")
             (sample_user "u1" "a@x.com" USER)).
    + simpl. lia.
    + reflexivity.
Defined.

(** X10.  A signup with a password of six characters or more and an
    email nobody holds, on a well-formed store, hands an identity with the
    ordinary role to [onSignup]; from then on that identity is the one the
    login form logs in for the email, with any password. *)
Theorem signup_then_login (db : IDBDatabase) (n e p rnd now p' : string) :
  store_ok db = true ->
  (6 <= String.length p)%nat ->
  index_get email e (users db) = None ->
  exists u,
    outcome (Signup.handleSubmit n e p rnd now) db
    = Resolved (Signup.onSignup u)
    /\ id u = rnd /\ name u = n /\ email u = e /\ role u = USER
    /\ outcome (Login.handleSubmit e p')
         (after (Signup.handleSubmit n e p rnd now) db)
       = Resolved (Login.onLogin u).
Proof.
  intros Hok Hlen Hfree. exists (mkUser rnd n e USER now).
  unfold outcome, after. rewrite (signup_accepts db n e p rnd now Hlen Hfree).
  simpl. repeat (split; [reflexivity|]).
  rewrite handleSubmit_any. simpl.
  unfold store_ok in Hok. apply andb_true_iff in Hok as [Hok _].
  apply andb_true_iff in Hok as [Hasc Huni].
  assert (Huni' : uniqueb email (put id (mkUser rnd n e USER now) (users db))
                  = true).
  { apply uniqueb_put; auto. apply violates_unique_false.
    intros x Hx Ex. destruct (index_get_None email e _ Hfree x Hx). exact Ex. }
  pose proof (unique_index_get email _ (mkUser rnd n e USER now) Huni'
                (put_In id _ _)) as G.
  simpl in G. now rewrite G.
Qed.

Lemma signup_then_login_witness :
  exists u,
    outcome (Signup.handleSubmit "Ann" "new@x.com" "123456" "k3j9x0q2a"
               "2024-05-01T08:00:00.000Z") undated_db
    = Resolved (Signup.onSignup u)
    /\ id u = "k3j9x0q2a" /\ name u = "Ann" /\ email u = "new@x.com"
    /\ role u = USER
    /\ outcome (Login.handleSubmit "new@x.com" "")
         (after (Signup.handleSubmit "Ann" "new@x.com" "123456" "k3j9x0q2a"
                   "2024-05-01T08:00:00.000Z") undated_db)
       = Resolved (Login.onLogin u).
Proof.
  apply (signup_then_login undated_db "Ann" "new@x.com" "123456"
           "k3j9x0q2a" "2024-05-01T08:00:00.000Z" "").
  - reflexivity.
  - simpl. lia.
  - reflexivity.
Defined.

(** X11.  Two signups with the same email whose lookups both settle
    before either saves: both pass the lookup, the first is accepted, the
    second is stopped by the unique index and ends with the general
    message, not the one for a taken email; the store then holds the
    first identity alone under that email. *)
Theorem signup_race (db : IDBDatabase) (u1 u2 : User) :
  id u1 <> id u2 -> email u1 = email u2 ->
  index_get email (email u1) (users db) = None ->
  exists db',
    Signup.raced u1 u2 db
    = (Resolved (Signup.onSignup u1,
                 Signup.setError "An error occurred during signup."), db')
    /\ with_email (email u1) (users db') = [u1].
Proof.
  intros Hid Hem Hfree.
  exists (mkDB (put id u1 (users db)) (scans db)).
  assert (V1 : violates_unique id email u1 (users db) = false).
  { apply violates_unique_false. intros x Hx Ex.
    destruct (index_get_None email _ _ Hfree x Hx). exact Ex. }
  assert (V2 : violates_unique id email u2 (put id u1 (users db)) = true).
  { apply existsb_exists. exists u1. split; [apply put_In|].
    rewrite Hem, String.eqb_refl. simpl. apply negb_true_iff.
    now apply String.eqb_neq. }
  unfold Signup.raced, Signup.resume, try_catch, await.
  change (getUserByEmail (email u1) db)
    with (Resolved (index_get email (email u1) (users db)), db).
  rewrite Hfree.
  change (getUserByEmail (email u2) db)
    with (Resolved (index_get email (email u2) (users db)), db).
  rewrite <- Hem, Hfree. cbv beta iota.
  destruct (saveUser_cases u1 db) as [[_ E1]|[V' _]]; [|congruence].
  rewrite E1. unfold ret at 1. cbv beta iota.
  destruct (saveUser_cases u2 (mkDB (put id u1 (users db)) (scans db)))
    as [[V' _]|[_ E2]]; [simpl in V'; congruence|].
  rewrite E2. split; [reflexivity|]. simpl.
  assert (P : Permutation (with_email (email u1) (put id u1 (users db)))
                (u1 :: with_email (email u1) (users db))).
  { apply filter_put; [apply String.eqb_refl|].
    intros x Hx Ex. apply String.eqb_eq in Ex.
    destruct (index_get_None email _ _ Hfree x Hx Ex). }
  assert (Z : with_email (email u1) (users db) = []).
  { unfold with_email.
    destruct (filter _ (users db)) as [|z zs] eqn:F; [reflexivity|].
    assert (Hz : In z (filter (fun x => String.eqb (email x) (email u1))
                         (users db))) by (rewrite F; now left).
    apply filter_In in Hz as [Hz Ez]. apply String.eqb_eq in Ez.
    destruct (index_get_None email _ _ Hfree z Hz Ez). }
  rewrite Z in P. apply Permutation_sym in P.
  now apply Permutation_length_1_inv in P.
Qed.

Lemma signup_race_witness :
  exists db',
    Signup.raced (sample_user "k3j9x0q2a" "new@x.com" USER)
      (sample_user "p0o9i8u7y" "new@x.com" USER) undated_db
    = (Resolved (Signup.onSignup (sample_user "k3j9x0q2a" "new@x.com" USER),
                 Signup.setError "An error occurred during signup."), db')
    /\ with_email "new@x.com" (users db')
       = [sample_user "k3j9x0q2a" "new@x.com" USER].
Proof.
  apply (signup_race undated_db (sample_user "k3j9x0q2a" "new@x.com" USER)
           (sample_user "p0o9i8u7y" "new@x.com" USER)).
  - discriminate.
  - reflexivity.
  - reflexivity.
Defined.

(** X12.  A signup whose random id is that of an identity already
    stored replaces that identity: after it the id reads as the new
    identity and the earlier identity's email no longer resolves. *)
Theorem signup_id_collision (db : IDBDatabase) (x : User)
    (n e p now : string) :
  store_ok db = true -> In x (users db) ->
  (6 <= String.length p)%nat ->
  index_get email e (users db) = None ->
  exists u,
    outcome (Signup.handleSubmit n e p (id x) now) db
    = Resolved (Signup.onSignup u)
    /\ outcome (getUser (id x))
         (after (Signup.handleSubmit n e p (id x) now) db)
       = Resolved (Some u)
    /\ email u = e
    /\ outcome (getUserByEmail (email x))
         (after (Signup.handleSubmit n e p (id x) now) db)
       = Resolved None.
Proof.
  intros Hok Hx Hlen Hfree. exists (mkUser (id x) n e USER now).
  unfold outcome, after.
  rewrite (signup_accepts db n e p (id x) now Hlen Hfree). simpl.
  split; [reflexivity|].
  unfold getUser, getUserByEmail, await, init, ret. simpl.
  split; [now rewrite (get_put_same id (mkUser (id x) n e USER now))|].
  split; [reflexivity|].
  unfold store_ok in Hok. apply andb_true_iff in Hok as [Hok _].
  apply andb_true_iff in Hok as [Hasc Huni].
  destruct (index_get email (email x)
              (put id (mkUser (id x) n e USER now) (users db)))
    as [y|] eqn:F; [|reflexivity].
  exfalso. apply index_get_Some in F as [Hy Ey].
  apply (put_elems_strict id _ _ _ Hasc) in Hy as [->|[Hy K]].
  - simpl in Ey. apply (index_get_None email e _ Hfree x Hx). now symmetry.
  - apply K. simpl.
    assert (Hf : In y (filter (fun z => String.eqb (email z) (email x))
                         (users db))).
    { apply filter_In. split; [assumption|now apply String.eqb_eq]. }
    rewrite (uniqueb_count email _ x Huni Hx) in Hf.
    destruct Hf as [<-|[]]. reflexivity.
Qed.

Lemma signup_id_collision_witness :
  exists u,
    outcome (Signup.handleSubmit "Ann" "new@x.com" "123456" "u1"
               "2024-05-01T08:00:00.000Z") undated_db
    = Resolved (Signup.onSignup u)
    /\ outcome (getUser "u1")
         (after (Signup.handleSubmit "Ann" "new@x.com" "123456" "u1"
                   "2024-05-01T08:00:00.000Z") undated_db)
       = Resolved (Some u)
    /\ email u = "new@x.com"
    /\ outcome (getUserByEmail "a@x.com")
         (after (Signup.handleSubmit "Ann" "new@x.com" "123456" "u1"
                   "2024-05-01T08:00:00.000Z") undated_db)
       = Resolved None.
Proof.
  apply (signup_id_collision undated_db (sample_user "u1" "a@x.com" USER)
           "Ann" "new@x.com" "123456" "2024-05-01T08:00:00.000Z").
  - reflexivity.
  - left. reflexivity.
  - simpl. lia.
  - reflexivity.
Defined.

(* ------------------------------------------------------------------ *)
(** * More on the session and the view controller *)

(** X13.  The pointer that [handleLogin] writes brings the session
    back: for an identity with a non-empty id that the seeded store holds,
    the next process start makes it current again on the screen of its
    role.  After [handleLogout] the next start stays on the landing
    screen with nobody current. *)
Theorem session_persists (st : App.State) (slot : App.Slot) (u : User)
    (now : string) (disk : option IDBDatabase) :
  id u <> "" ->
  get id (id u) (users (seeded now disk)) = Some u ->
  App.initApp now (snd (App.handleLogin u st slot)) App.initial (open disk)
  = (Resolved (App.mkState (Some u) (App.home u) false), seeded now disk)
  /\ App.initApp now
       (snd (App.handleLogout (fst (App.handleLogin u st slot))
               (snd (App.handleLogin u st slot))))
       App.initial (open disk)
     = (Resolved (App.mkState None App.landing false), seeded now disk).
Proof.
  intros Hne Hget. rewrite !initApp_resolves. fold (seeded now disk).
  simpl. unfold Js.truthy.
  replace (String.eqb (id u) "") with false
    by (symmetry; now apply String.eqb_neq).
  simpl. rewrite Hget. split; reflexivity.
Qed.

Lemma session_persists_witness :
  App.initApp "2024-05-02T09:30:00.000Z"
    (snd (App.handleLogin (sample_user "u1" "a@x.com" USER) App.initial None))
    App.initial (open (Some undated_db))
  = (Resolved
       (App.mkState (Some (sample_user "u1" "a@x.com" USER)) App.dashboard
          false),
     seeded "2024-05-02T09:30:00.000Z" (Some undated_db)).
Proof.
  apply (session_persists App.initial None (sample_user "u1" "a@x.com" USER)
           "2024-05-02T09:30:00.000Z" (Some undated_db)).
  - discriminate.
  - reflexivity.
Defined.

Lemma view_matches_role_login (user : User) (b : bool) :
  view_matches_role (App.mkState (Some user) (App.home user) b).
Proof.
  unfold view_matches_role, App.home. simpl.
  destruct (role user) eqn:R; simpl; eauto.
Qed.

Lemma view_matches_role_step (st st' : App.State) :
  App.step st st' -> view_matches_role st -> view_matches_role st'.
Proof.
  intros Hstep Hok. destruct Hstep; try exact I.
  - rewrite initApp_resolves in H. injection H as <- _.
    destruct slot as [uid|]; [|exact Hok].
    destruct (Js.truthy uid); [|exact Hok].
    destruct (get id uid _); [apply view_matches_role_login|exact Hok].
  - apply view_matches_role_login.
  - unfold view_matches_role, App.setView, App.home. simpl.
    destruct (role u) eqn:R; simpl; eauto.
Qed.

(** X14.  In every reachable state of the view controller the screen
    agrees with the role: the dashboard view is held by a current
    identity with the ordinary role, the admin view by a current
    administrator.  So neither fallback of [renderContent] is ever taken:
    once initialisation is over the dashboard view renders the dashboard,
    the admin view the admin screen, and the login form appears under the
    login view only. *)
Theorem view_agrees_with_role (st : App.State) :
  App.reachable st ->
  (App.view st = App.dashboard ->
   exists u, App.currentUser st = Some u /\ role u = USER
             /\ App.renderContent st = App.Dashboard (Some u))
  /\ (App.view st = App.admin ->
      exists u, App.currentUser st = Some u /\ role u = ADMIN
                /\ App.renderContent st = App.AdminDashboard u)
  /\ (App.render st = App.LoginForm -> App.view st = App.login).
Proof.
  intros Hreach.
  assert (Hok : view_matches_role st).
  { induction Hreach as [|st st' _ IH Hstep]; [exact I|].
    eapply view_matches_role_step; eassumption. }
  unfold view_matches_role in Hok.
  unfold App.render, App.renderContent.
  split; [|split].
  - intros V. rewrite V in *. destruct Hok as (u & -> & R). eauto.
  - intros V. rewrite V in *. destruct Hok as (u & -> & R).
    exists u. rewrite R. simpl. auto.
  - destruct (App.isInitializing st); [discriminate|].
    destruct (App.view st); try discriminate; try reflexivity.
    + destruct Hok as (u & -> & _). discriminate.
    + destruct Hok as (u & -> & R). rewrite R. discriminate.
Qed.

Lemma view_agrees_with_role_witness :
  exists u,
    App.currentUser
      (App.mkState (Some (sample_user "u1" "a@x.com" USER)) App.dashboard
         false)
    = Some u
    /\ role u = USER
    /\ App.renderContent
         (App.mkState (Some (sample_user "u1" "a@x.com" USER)) App.dashboard
            false)
       = App.Dashboard (Some u).
Proof.
  refine (proj1
    (view_agrees_with_role
       (App.mkState (Some (sample_user "u1" "a@x.com" USER)) App.dashboard
          false) _) eq_refl).
  apply (App.reachable_step App.initial); [apply App.reachable_initial|].
  apply (App.step_initApp "2024-05-02T09:30:00.000Z" (Some "u1")
           (Some undated_db) _ _
           (seeded "2024-05-02T09:30:00.000Z" (Some undated_db))).
  reflexivity.
Defined.

(* ------------------------------------------------------------------ *)
(** * More on the dashboard *)

Lemma truthy_nonempty (s : string) : s <> "" -> Js.truthy s = true.
Proof.
  intros H. unfold Js.truthy. apply negb_true_iff. now apply String.eqb_neq.
Qed.

Lemma In_owner_listing {E : Js.Engine}
    (db : IDBDatabase) (u : string) (s : BreedResult) :
  In s (owner_listing u db) <-> In s (scans db) /\ userId s = u.
Proof.
  unfold owner_listing, outcome, getUserScans, await, init, ret,
    index_getAll. simpl. split.
  - intros H. eapply Permutation_in in H; [|apply Array_sort_perm].
    apply filter_In in H as [H O]. split; [assumption|].
    now apply String.eqb_eq.
  - intros [H O].
    eapply Permutation_in; [apply Permutation_sym, Array_sort_perm|].
    apply filter_In. split; [assumption|now apply String.eqb_eq].
Qed.

(** X15.  A successful identification stores the classification
    answer as a scan: the record has the random id, the signed-in user as
    owner, the selected image and the clock's reading, and in every other
    field what the answer carries, the ten fields of the classification as
    well as a health analysis or a purchased flag if the answer has one.
    That record becomes the current one, is stored under its id and shows
    in its owner's listing; the health analysis and the error shown before
    are cleared and the identities are untouched. *)
Theorem identify_stores_scan {E : Js.Engine} (user : User)
    (identifyBreed :
       string -> GeminiService.ApiResult PredictionResponse)
    (rnd now img : string) (v : Dashboard.View) (db : IDBDatabase)
    (prediction : PredictionResponse) :
  Dashboard.selectedImage (Dashboard.scan v) = Some img -> img <> "" ->
  identifyBreed img = GeminiService.ApiOk prediction ->
  exists v' db' r,
    Dashboard.handleIdentify user identifyBreed rnd now v db
    = (Resolved v', db')
    /\ Dashboard.currentResult (Dashboard.scan v') = Some r
    /\ get br_id rnd (scans db') = Some r
    /\ In r (owner_listing (id user) db')
    /\ (br_id r = rnd /\ userId r = id user /\ imageUrl r = img
        /\ timestamp r = now)
    /\ (animalType r = p_animalType prediction
        /\ breedName r = p_breedName prediction
        /\ confidence r = p_confidence prediction
        /\ description r = p_description prediction
        /\ similarBreeds r = p_similarBreeds prediction
        /\ price r = p_price prediction
        /\ uses r = p_uses prediction
        /\ lifeExpectancy r = p_lifeExpectancy prediction
        /\ dietRoutine r = p_dietRoutine prediction
        /\ exercisePlan r = p_exercisePlan prediction)
    /\ (healthAnalysis r = p_healthAnalysis prediction
        /\ isPurchased r = p_isPurchased prediction)
    /\ Dashboard.healthAnalysis (Dashboard.scan v') = None
    /\ Dashboard.error (Dashboard.scan v') = None
    /\ Dashboard.isUploading v' = false
    /\ users db' = users db.
Proof.
  intros Himg Hne Hcall. unfold Dashboard.handleIdentify.
  rewrite Himg, (truthy_nonempty img Hne), Hcall.
  unfold await. rewrite saveScanToDB_puts.
  do 3 eexists. split; [reflexivity|]. simpl.
  split; [reflexivity|]. split.
  - match goal with
    | |- get br_id rnd (put br_id ?r _) = _ => apply (get_put_same br_id r)
    end.
  - split.
    + apply In_owner_listing. simpl. split; [apply put_In|reflexivity].
    + repeat split.
Qed.

Lemma identify_stores_scan_witness :
  exists v' db' r,
    Dashboard.handleIdentify (sample_user "u1" "a@x.com" USER)
      (fun _ =>
         GeminiService.ApiOk
           (mkPrediction "Dog" "Beagle" 92.5%float "A small scent hound."
              ["Harrier"] 450%float ["companionship"] "12-15 years"
              "Two meals a day" "One hour of walking" None (Some true)))
      "k3j9x0q2a" "2024-05-02T09:30:00.000Z"
      (Dashboard.mkView
         (Dashboard.mkState (Some "data:image/jpeg;base64,AAAA") None None
            None [] false)
         false None [])
      undated_db
    = (Resolved v', db')
    /\ Dashboard.currentResult (Dashboard.scan v') = Some r
    /\ get br_id "k3j9x0q2a" (scans db') = Some r
    /\ In r (owner_listing (E := Js.standard_only) "u1" db')
    /\ breedName r = "Beagle"
    /\ isPurchased r = Some true.
Proof.
  destruct (identify_stores_scan (E := Js.standard_only)
              (sample_user "u1" "a@x.com" USER)
              (fun _ =>
                 GeminiService.ApiOk
                   (mkPrediction "Dog" "Beagle" 92.5%float
                      "A small scent hound." ["Harrier"] 450%float
                      ["companionship"] "12-15 years" "Two meals a day"
                      "One hour of walking" None (Some true)))
              "k3j9x0q2a" "2024-05-02T09:30:00.000Z"
              "data:image/jpeg;base64,AAAA"
              (Dashboard.mkView
                 (Dashboard.mkState (Some "data:image/jpeg;base64,AAAA")
                    None None None [] false)
                 false None [])
              undated_db _ eq_refl ltac:(discriminate) eq_refl)
    as (v' & db' & r & Hrun & Hcur & Hget & Hin & _ & (_ & Hb & _)
        & (_ & Hp) & _).
  exists v', db', r. auto 10.
Defined.

(** X16.  Without a selected image [handleIdentify] changes nothing.
    When the classification call throws, nothing is written to the store,
    no scan is current afterwards, and the error shown is the message
    thrown, or "Identification failed." when that message is empty. *)
Theorem identify_failure (user : User)
    (identifyBreed :
       string -> GeminiService.ApiResult PredictionResponse)
    (rnd now : string) (v : Dashboard.View) (db : IDBDatabase) :
  (Dashboard.selectedImage (Dashboard.scan v) = None
   \/ Dashboard.selectedImage (Dashboard.scan v) = Some "" ->
   Dashboard.handleIdentify user identifyBreed rnd now v db
   = (Resolved v, db))
  /\ (forall img message,
        Dashboard.selectedImage (Dashboard.scan v) = Some img -> img <> "" ->
        identifyBreed img = GeminiService.ApiError message ->
        exists v',
          Dashboard.handleIdentify user identifyBreed rnd now v db
          = (Resolved v', db)
          /\ Dashboard.currentResult (Dashboard.scan v') = None
          /\ Dashboard.error (Dashboard.scan v')
             = Some (if String.eqb message "" then "Identification failed."
                     else message)
          /\ Dashboard.shoppingCart (Dashboard.scan v')
             = Dashboard.shoppingCart (Dashboard.scan v)).
Proof.
  unfold Dashboard.handleIdentify. split.
  - intros [H|H]; rewrite H; reflexivity.
  - intros img message Himg Hne Hcall.
    rewrite Himg, (truthy_nonempty img Hne), Hcall.
    eexists. split; [reflexivity|]. simpl.
    split; [reflexivity|]. split; [|reflexivity].
    unfold Js.truthy. now destruct (String.eqb message "").
Qed.

Lemma identify_failure_witness :
  exists v',
    Dashboard.handleIdentify (sample_user "u1" "a@x.com" USER)
      (fun _ => GeminiService.ApiError "")
      "k3j9x0q2a" "2024-05-02T09:30:00.000Z"
      (Dashboard.mkView
         (Dashboard.mkState (Some "data:image/jpeg;base64,AAAA") None None
            None [] false)
         false None [])
      undated_db
    = (Resolved v', undated_db)
    /\ Dashboard.error (Dashboard.scan v') = Some "Identification failed.".
Proof.
  destruct (proj2 (identify_failure (sample_user "u1" "a@x.com" USER)
                     (fun _ => GeminiService.ApiError "")
                     "k3j9x0q2a" "2024-05-02T09:30:00.000Z"
                     (Dashboard.mkView
                        (Dashboard.mkState
                           (Some "data:image/jpeg;base64,AAAA") None None
                           None [] false)
                        false None [])
                     undated_db)
              "data:image/jpeg;base64,AAAA" "" eq_refl ltac:(discriminate)
              eq_refl)
    as (v' & Hrun & _ & Herr & _).
  exists v'. split; [exact Hrun|exact Herr].
Defined.

(** X17.  A purchase survives a reload: after [handlePurchase] on a
    well-formed store, the cart that [loadPurchases] fills for the scan's
    owner holds the scan under its id with the purchased flag set, and
    holds nothing but purchased scans of that owner. *)
Theorem purchase_survives_reload {E : Js.Engine}
    (user : User) (st st0 : Dashboard.State)
    (db : IDBDatabase) (cur : BreedResult) :
  store_ok db = true ->
  Dashboard.currentResult st = Some cur -> userId cur = id user ->
  exists st2,
    Dashboard.loadPurchases user st0 (after (Dashboard.handlePurchase st) db)
    = (Resolved st2, after (Dashboard.handlePurchase st) db)
    /\ by_id (br_id cur) (Dashboard.shoppingCart st2)
       = Some (spread_isPurchased cur true)
    /\ (forall s, In s (Dashboard.shoppingCart st2) ->
                  isPurchased s = Some true /\ userId s = id user).
Proof.
  intros Hok Hcur Hown. unfold store_ok in Hok.
  apply andb_true_iff in Hok as [_ Hasc].
  unfold after, Dashboard.handlePurchase. rewrite Hcur.
  unfold await at 1. rewrite saveScanToDB_puts. simpl.
  unfold Dashboard.loadPurchases, await, getUserScans, init, ret,
    index_getAll. simpl.
  eexists. split; [reflexivity|]. simpl.
  set (r := spread_isPurchased cur true).
  set (l := put br_id r (scans db)).
  assert (Hin : forall s,
            In s (filter Dashboard.purchased
                    (Js.Array_sort newest_first
                       (filter (fun x => String.eqb (userId x) (id user)) l)))
            <-> In s l /\ userId s = id user
                /\ Dashboard.purchased s = true).
  { intros s. rewrite filter_In. split.
    - intros [H P]. eapply Permutation_in in H; [|apply Array_sort_perm].
      apply filter_In in H as [H O]. apply String.eqb_eq in O. auto.
    - intros (H & O & P). split; [|assumption].
      eapply Permutation_in; [apply Permutation_sym, Array_sort_perm|].
      apply filter_In. split; [assumption|now apply String.eqb_eq]. }
  split.
  - unfold by_id. change (br_id cur) with (br_id r).
    apply find_the_one.
    + apply Hin. split; [apply put_In|]. split; [exact Hown|reflexivity].
    + intros x Hx Ek. apply Hin in Hx as (Hx & _ & _).
      apply (ascendingb_key_inj br_id l); auto.
      * now apply ascendingb_put.
      * apply put_In.
  - intros s Hs. apply Hin in Hs as (_ & O & P). split; [|assumption].
    unfold Dashboard.purchased in P.
    destruct (isPurchased s) as [[|]|]; congruence.
Qed.

Lemma purchase_survives_reload_witness :
  exists st2,
    (Dashboard.loadPurchases (E := Js.standard_only)) (sample_user "u1" "a@x.com" USER)
      (Dashboard.mkState None None None None [] false)
      (after (Dashboard.handlePurchase
                (Dashboard.mkState (Some "data:image/jpeg;base64,AAAA")
                   (Some (sample_scan "s1" "u1" "2024-03-01T12:30:15.250Z"))
                   None None [] false))
         undated_db)
    = (Resolved st2,
       after (Dashboard.handlePurchase
                (Dashboard.mkState (Some "data:image/jpeg;base64,AAAA")
                   (Some (sample_scan "s1" "u1" "2024-03-01T12:30:15.250Z"))
                   None None [] false))
         undated_db)
    /\ by_id "s1" (Dashboard.shoppingCart st2)
       = Some (spread_isPurchased
                 (sample_scan "s1" "u1" "2024-03-01T12:30:15.250Z") true).
Proof.
  destruct (purchase_survives_reload (E := Js.standard_only) (sample_user "u1" "a@x.com" USER)
              (Dashboard.mkState (Some "data:image/jpeg;base64,AAAA")
                 (Some (sample_scan "s1" "u1" "2024-03-01T12:30:15.250Z"))
                 None None [] false)
              (Dashboard.mkState None None None None [] false)
              undated_db
              (sample_scan "s1" "u1" "2024-03-01T12:30:15.250Z")
              eq_refl eq_refl eq_refl)
    as (st2 & Hrun & Hfound & _).
  exists st2. split; [exact Hrun|exact Hfound].
Defined.

Lemma get_delete_same {A} (key : A -> string) (k : string) (l : list A) :
  get key k (delete key k l) = None.
Proof.
  unfold get, delete. induction l as [|y l IH]; simpl; [reflexivity|].
  destruct (String.eqb (key y) k) eqn:E; simpl; [exact IH|].
  now rewrite E.
Qed.

(** X18.  A confirmed return removes the scan from the store and from
    the cart.  When the scan is the current one it stays on screen, with
    its purchased flag set to false, although the store no longer holds
    it.  A return that is not confirmed changes nothing. *)
Theorem return_removes_scan (st : Dashboard.State) (db : IDBDatabase)
    (k : string) :
  (exists st',
     Dashboard.handleReturn true k st db
     = (Resolved st', after (deleteScan k) db)
     /\ get br_id k (scans (after (deleteScan k) db)) = None
     /\ by_id k (Dashboard.shoppingCart st') = None
     /\ (forall cur, Dashboard.currentResult st = Some cur ->
                     br_id cur = k ->
                     Dashboard.currentResult st'
                     = Some (spread_isPurchased cur false))
     /\ (forall cur, Dashboard.currentResult st = Some cur ->
                     br_id cur <> k ->
                     Dashboard.currentResult st' = Some cur))
  /\ Dashboard.handleReturn false k st db = (Resolved st, db).
Proof.
  split; [|reflexivity].
  unfold Dashboard.handleReturn, after, deleteScan, await, init, ret. simpl.
  eexists. split; [reflexivity|]. simpl.
  split; [apply get_delete_same|]. split.
  - apply (get_delete_same br_id k (Dashboard.shoppingCart st)).
  - split; intros cur -> Hk.
    + apply String.eqb_eq in Hk. now rewrite Hk.
    + apply String.eqb_neq in Hk. now rewrite Hk.
Qed.

(** X19.  The health check does nothing without a selected image or
    without a current scan.  When the health-scan call throws, the store
    and the current scan stay as they were and the error shown is
    "Health analysis failed."; the analysis shown before stays too. *)
Theorem health_check_failure
    (detectAnimalDiseases :
       string -> string ->
       GeminiService.ApiResult HealthAnalysisResponse)
    (st : Dashboard.State) (db : IDBDatabase) :
  (Dashboard.selectedImage st = None \/ Dashboard.selectedImage st = Some ""
   \/ Dashboard.currentResult st = None ->
   Dashboard.handleHealthCheck detectAnimalDiseases st db
   = (Resolved st, db))
  /\ (forall img cur message,
        Dashboard.selectedImage st = Some img -> img <> "" ->
        Dashboard.currentResult st = Some cur ->
        detectAnimalDiseases img (animalType cur)
        = GeminiService.ApiError message ->
        exists st',
          Dashboard.handleHealthCheck detectAnimalDiseases st db
          = (Resolved st', db)
          /\ Dashboard.currentResult st' = Some cur
          /\ Dashboard.error st' = Some "Health analysis failed."
          /\ Dashboard.healthAnalysis st' = Dashboard.healthAnalysis st
          /\ Dashboard.shoppingCart st' = Dashboard.shoppingCart st).
Proof.
  unfold Dashboard.handleHealthCheck. split.
  - intros [H|[H|H]]; rewrite H; try reflexivity.
    + now destruct (Dashboard.currentResult st).
    + now destruct (Dashboard.selectedImage st).
  - intros img cur message Himg Hne Hcur Hcall.
    rewrite Himg, Hcur, (truthy_nonempty img Hne), Hcall.
    eexists. split; [reflexivity|]. simpl. repeat split.
Qed.

Lemma health_check_failure_witness :
  exists st',
    Dashboard.handleHealthCheck (fun _ _ => GeminiService.ApiError "offline")
      (Dashboard.mkState (Some "data:image/jpeg;base64,AAAA")
         (Some (sample_scan "s1" "u1" "2024-03-01T12:30:15.250Z"))
         None None [] false)
      undated_db
    = (Resolved st', undated_db)
    /\ Dashboard.error st' = Some "Health analysis failed.".
Proof.
  destruct (proj2 (health_check_failure
                     (fun _ _ => GeminiService.ApiError "offline")
                     (Dashboard.mkState (Some "data:image/jpeg;base64,AAAA")
                        (Some (sample_scan "s1" "u1"
                                 "2024-03-01T12:30:15.250Z"))
                        None None [] false)
                     undated_db)
              "data:image/jpeg;base64,AAAA"
              (sample_scan "s1" "u1" "2024-03-01T12:30:15.250Z") "offline"
              eq_refl ltac:(discriminate) eq_refl eq_refl)
    as (st' & Hrun & _ & Herr & _).
  exists st'. split; [exact Hrun|exact Herr].
Defined.

(* ------------------------------------------------------------------ *)
(** * More on the adapter *)

Lemma split_comma_free (s : string) :
  comma_free s = true -> GeminiService.split_comma s = [s].
Proof.
  induction s as [|c s IH]; simpl; [reflexivity|].
  intros H. apply andb_true_iff in H as [Hc Hs].
  apply negb_true_iff in Hc. rewrite Hc, (IH Hs). reflexivity.
Qed.

Lemma split_comma_app (p r : string) :
  comma_free p = true ->
  GeminiService.split_comma (String.append p (String ","%char r))
  = p :: GeminiService.split_comma r.
Proof.
  induction p as [|c p IH]; simpl; [reflexivity|].
  intros H. apply andb_true_iff in H as [Hc Hp].
  apply negb_true_iff in Hc. rewrite Hc, (IH Hp). reflexivity.
Qed.

(** X20.  The image payload sent to the model is the data of a data
    URL: for a string made of a comma-free prefix, a comma and a non-empty
    comma-free payload it is the payload.  A string without a comma is
    sent whole, and so is one that ends in its only comma. *)
Theorem image_payload_of_data_url (prefix payload : string) :
  comma_free prefix = true -> comma_free payload = true ->
  (payload <> "" ->
   GeminiService.inline_image_data
     (String.append prefix (String ","%char payload))
   = payload)
  /\ GeminiService.inline_image_data payload = payload
  /\ GeminiService.inline_image_data (String.append prefix ",")
     = String.append prefix ",".
Proof.
  intros Hp Hq. unfold GeminiService.inline_image_data. repeat split.
  - intros Hne. rewrite (split_comma_app prefix payload Hp).
    rewrite (split_comma_free payload Hq). simpl.
    now rewrite (truthy_nonempty payload Hne).
  - now rewrite (split_comma_free payload Hq).
  - now rewrite (split_comma_app prefix "" Hp).
Qed.

Lemma image_payload_of_data_url_witness :
  GeminiService.inline_image_data "data:image/jpeg;base64,AAAA" = "AAAA".
Proof.
  apply (image_payload_of_data_url "data:image/jpeg;base64" "AAAA");
    solve [reflexivity | discriminate].
Defined.





Lemma all_in_unit_spec (n : nat) :
  forall z x, all_in_unit n z = true -> (z <= x < z + Z.of_nat n)%Z ->
              in_unit (GeminiService.sample_of x) = true.
Proof.
  induction n as [|n IH]; intros z x H Hx; [lia|].
  cbn [all_in_unit] in H. apply andb_true_iff in H as [H1 H2].
  destruct (Z.eq_dec x z) as [->|Hne]; [assumption|].
  apply (IH (z + 1)%Z); [assumption|lia].
Qed.

Lemma sample_in_unit (z : Z) :
  (-32768 <= z < 32768)%Z -> in_unit (GeminiService.sample_of z) = true.
Proof.
  intros Hz. apply (all_in_unit_spec (Z.to_nat 65536) (-32768)%Z).
  - vm_compute. reflexivity.
  - rewrite Z2Nat.id by lia. lia.
Qed.

Lemma Int16_of_range (lo hi : Byte.byte) :
  (-32768 <= GeminiService.Int16_of lo hi < 32768)%Z.
Proof.
  unfold GeminiService.Int16_of.
  pose proof (Byte.to_N_bounded lo). pose proof (Byte.to_N_bounded hi).
  destruct (_ <? 32768)%Z eqn:C;
    [apply Z.ltb_lt in C|apply Z.ltb_ge in C]; lia.
Qed.

Lemma Int16Array_of_facts (n : nat) :
  forall data, (List.length data <= n)%nat ->
    List.length (GeminiService.Int16Array_of data)
    = (List.length data / 2)%nat
    /\ Forall (fun z => (-32768 <= z < 32768)%Z)
         (GeminiService.Int16Array_of data).
Proof.
  induction n as [|n IH]; intros data Hlen.
  - destruct data; [|simpl in Hlen; lia]. split; [reflexivity|constructor].
  - destruct data as [|lo [|hi rest]].
    + split; [reflexivity|constructor].
    + split; [reflexivity|constructor].
    + simpl in Hlen. destruct (IH rest ltac:(lia)) as [L F].
      cbn [GeminiService.Int16Array_of List.length]. split.
      * rewrite L.
        change (S (S (List.length rest))) with (2 + List.length rest)%nat.
        replace (2 + List.length rest)%nat
          with (List.length rest + 1 * 2)%nat by lia.
        rewrite Nat.div_add by lia. lia.
      * constructor; [apply Int16_of_range|assumption].
Qed.

Lemma nth_in_range (l : list Z) (k : nat) :
  Forall (fun z => (-32768 <= z < 32768)%Z) l ->
  (-32768 <= nth k l 0 < 32768)%Z.
Proof.
  intros F. destruct (Nat.lt_ge_cases k (List.length l)) as [H|H].
  - rewrite Forall_forall in F. apply F. now apply nth_In.
  - rewrite nth_overflow by assumption. lia.
Qed.

(** X22.  Decoding 16-bit audio: for one to 32 channels and at least
    one frame of data, [decodeAudioData] returns as many channels as
    asked, each with the whole number of frames the bytes hold (two bytes
    a sample, a trailing odd byte and an incomplete frame left out), and
    every sample lies in the nominal range, at least -1 and below 1.
    Data of fewer than two bytes, such as the empty payload, makes the
    buffer creation throw. *)
Theorem decoded_audio_in_range (data : list Byte.byte) (numChannels : nat) :
  ((1 <= numChannels <= 32)%nat ->
   (numChannels <= List.length data / 2)%nat ->
   exists channels,
     GeminiService.decodeAudioData data numChannels = Some channels
     /\ List.length channels = numChannels
     /\ Forall (fun ch => List.length ch
                          = (List.length data / 2 / numChannels)%nat)
          channels
     /\ Forall (Forall (fun x => in_unit x = true)) channels)
  /\ ((List.length data < 2)%nat ->
      GeminiService.decodeAudioData data numChannels = None).
Proof.
  destruct (Int16Array_of_facts (List.length data) data (le_n _)) as [L F].
  unfold GeminiService.decodeAudioData. rewrite L. split.
  - intros [H1 H2] Hframes.
    assert (Hf : (1 <= List.length data / 2 / numChannels)%nat).
    { apply Nat.div_le_lower_bound; lia. }
    replace (1 <=? numChannels)%nat with true
      by (symmetry; now apply Nat.leb_le).
    replace (numChannels <=? 32)%nat with true
      by (symmetry; now apply Nat.leb_le).
    replace (1 <=? List.length data / 2 / numChannels)%nat with true
      by (symmetry; now apply Nat.leb_le).
    simpl. eexists. split; [reflexivity|]. split.
    + now rewrite length_map, length_seq.
    + split; apply Forall_map, Forall_forall; intros ch _;
        unfold GeminiService.channelData_of.
      * now rewrite length_map, length_seq.
      * apply Forall_map, Forall_forall. intros i _.
        apply sample_in_unit, nth_in_range, F.
  - intros Hshort.
    replace (List.length data / 2)%nat with 0%nat
      by (symmetry; apply Nat.div_small; lia).
    rewrite Nat.Div0.div_0_l.
    now rewrite andb_false_r.
Qed.

Lemma decoded_audio_in_range_witness :
  exists channels,
    GeminiService.decodeAudioData
      [Byte.x00; Byte.x80; Byte.xff; Byte.x7f; Byte.x01] 1
    = Some channels
    /\ List.length channels = 1%nat
    /\ Forall (fun ch => List.length ch = 2%nat) channels
    /\ Forall (Forall (fun x => in_unit x = true)) channels.
Proof.
  apply (decoded_audio_in_range
           [Byte.x00; Byte.x80; Byte.xff; Byte.x7f; Byte.x01] 1).
  - lia.
  - simpl. lia.
Defined.

(* ------------------------------------------------------------------ *)
(** * The administrator's dashboard *)

Section SortByKey.
Context {A : Type} (k : A -> Z).

Let by_key (a b : A) : option Z := Some (k a - k b)%Z.

Lemma sort_insert_by_key (x : A) (l : list A) :
  StronglySorted (fun a b => (k a <= k b)%Z) l ->
  StronglySorted (fun a b => (k a <= k b)%Z) (Js.sort_insert by_key x l).
Proof.
  induction l as [|y l IH]; simpl; intros Hs.
  - repeat constructor.
  - inversion Hs as [|? ? Hs' Hall]; subst.
    unfold Js.SortCompare, by_key.
    destruct (0 <? k x - k y)%Z eqn:C.
    + apply Z.ltb_lt in C. constructor; [now apply IH|].
      apply (Permutation_Forall
               (Permutation_sym (sort_insert_perm by_key x l))).
      constructor; [lia|assumption].
    + apply Z.ltb_ge in C. constructor; [assumption|].
      constructor; [lia|].
      eapply Forall_impl; [|exact Hall]. simpl. intros z Hz. lia.
Qed.

Lemma Array_sort_by_key (l : list A) :
  StronglySorted (fun a b => (k a <= k b)%Z) (Js.Array_sort by_key l).
Proof.
  induction l as [|x l IH]; simpl; [constructor|].
  now apply sort_insert_by_key.
Qed.

Lemma Array_pop_greatest (l : list A) (m : A) :
  StronglySorted (fun a b => (k a <= k b)%Z) l ->
  Js.Array_pop l = Some m ->
  In m l /\ forall x, In x l -> (k x <= k m)%Z.
Proof.
  induction l as [|y l IH]; [discriminate|].
  intros Hs Hpop. inversion Hs as [|? ? Hs' Hall]; subst.
  destruct l as [|z l'].
  - simpl in Hpop. injection Hpop as <-. split; [now left|].
    intros x [<-|[]]. lia.
  - change (Js.Array_pop (y :: z :: l')) with (Js.Array_pop (z :: l'))
      in Hpop.
    destruct (IH Hs' Hpop) as [Hin Hmax]. split; [now right|].
    intros x [<-|Hx]; [|now apply Hmax].
    rewrite Forall_forall in Hall. now apply Hall.
Qed.

End SortByKey.

Lemma Array_pop_nonempty {A} (l : list A) :
  l <> [] -> exists m, Js.Array_pop l = Some m.
Proof.
  induction l as [|y l IH]; [congruence|]. intros _.
  destruct l as [|z l']; [simpl; eauto|].
  change (Js.Array_pop (y :: z :: l')) with (Js.Array_pop (z :: l')).
  apply IH. discriminate.
Qed.

(** X23.  The top breed of the statistics is a breed of the uploads
    that no other breed of the uploads outnumbers; without uploads it reads
    "N/A". *)
Theorem most_common_is_most_frequent (st : AdminDashboard.State) :
  (AdminDashboard.allUploads st <> [] ->
   exists b,
     AdminDashboard.mostCommon st = Some b
     /\ In b (map breedName (AdminDashboard.allUploads st))
     /\ forall s, In s (AdminDashboard.allUploads st) ->
          (AdminDashboard.occurrences
             (map breedName (AdminDashboard.allUploads st)) (breedName s)
           <= AdminDashboard.occurrences
                (map breedName (AdminDashboard.allUploads st)) b)%Z)
  /\ (AdminDashboard.allUploads st = [] ->
      AdminDashboard.mostCommon st = Some "N/A").
Proof.
  unfold AdminDashboard.mostCommon. split.
  - intros Hne.
    set (breeds := map breedName (AdminDashboard.allUploads st)).
    assert (Hb : breeds <> []).
    { unfold breeds. destruct (AdminDashboard.allUploads st);
        [congruence|discriminate]. }
    replace (0 <? List.length breeds)%nat with true
      by (symmetry; apply Nat.ltb_lt; destruct breeds;
          [congruence|simpl; lia]).
    set (cmp := fun a b : string =>
                  Some (AdminDashboard.occurrences breeds a
                        - AdminDashboard.occurrences breeds b)%Z).
    assert (Hs : Js.Array_sort cmp breeds <> []).
    { intros E. apply Hb.
      apply Permutation_nil. rewrite <- E. apply Array_sort_perm. }
    destruct (Array_pop_nonempty _ Hs) as [m Hm].
    destruct (Array_pop_greatest (AdminDashboard.occurrences breeds)
                _ m (Array_sort_by_key _ breeds) Hm) as [Hin Hmax].
    exists m. split; [exact Hm|]. split.
    + eapply Permutation_in; [apply Array_sort_perm|exact Hin].
    + intros s Hsin. apply Hmax.
      eapply Permutation_in; [apply Permutation_sym, Array_sort_perm|].
      unfold breeds. now apply in_map.
  - intros ->. reflexivity.
Qed.

Lemma most_common_is_most_frequent_witness :
  exists b,
    AdminDashboard.mostCommon
      (AdminDashboard.mkState []
         [sample_scan "s1" "u1" "2024-03-01T12:30:15.250Z";
          scan_with_extras] false)
    = Some b
    /\ In b ["Beagle"; "Beagle"].
Proof.
  destruct (proj1 (most_common_is_most_frequent
                     (AdminDashboard.mkState []
                        [sample_scan "s1" "u1" "2024-03-01T12:30:15.250Z";
                         scan_with_extras] false))
              ltac:(discriminate)) as (b & Hb & Hin & _).
  exists b. split; [exact Hb|exact Hin].
Defined.

Lemma Permutation_filter_both {A} (P : A -> bool) (l1 l2 : list A) :
  Permutation l1 l2 -> Permutation (filter P l1) (filter P l2).
Proof.
  induction 1 as [|x l1 l2 _ IH|x y l|l1 l2 l3 _ IH1 _ IH2]; simpl.
  - constructor.
  - destruct (P x); [now constructor|assumption].
  - destruct (P x), (P y); try reflexivity. apply perm_swap.
  - now transitivity (filter P l2).
Qed.

(** X24.  The administrator's data load shows the store: the identities
    as stored, the scans as a rearrangement of the scans store, newest
    first when every timestamp parses as a date, and counts that are those
    of the two stores.  It leaves the store as it was. *)
Theorem admin_load_shows_store {E : Js.Engine} (st : AdminDashboard.State)
    (db : IDBDatabase) :
  exists st',
    AdminDashboard.fetchAdminData st db = (Resolved st', db)
    /\ AdminDashboard.users st' = users db
    /\ Permutation (AdminDashboard.allUploads st') (scans db)
    /\ (Forall valid_time (scans db) ->
        newest_to_oldest (AdminDashboard.allUploads st'))
    /\ AdminDashboard.totalUsers st' = List.length (users db)
    /\ AdminDashboard.totalScans st' = List.length (scans db)
    /\ AdminDashboard.isLoading st' = false.
Proof.
  eexists. split; [reflexivity|]. simpl.
  unfold AdminDashboard.totalUsers, AdminDashboard.totalScans, getAll. simpl.
  split; [reflexivity|]. split; [apply Array_sort_perm|].
  split; [apply Array_sort_sorted|].
  split; [reflexivity|]. split; [|reflexivity].
  apply Permutation_length, Array_sort_perm.
Qed.

(** X25.  A confirmed purge keeps the administrator's list in step
    with the store: when the list shown is a rearrangement of the scans
    store, it still is after [handleDeleteScan], and neither holds a scan
    with the purged id any more.  A purge that is not confirmed changes
    nothing. *)
Theorem purge_keeps_list_in_step (st : AdminDashboard.State)
    (db : IDBDatabase) (k : string) :
  Permutation (AdminDashboard.allUploads st) (scans db) ->
  (exists st',
     AdminDashboard.handleDeleteScan true k st db
     = (Resolved st', after (deleteScan k) db)
     /\ Permutation (AdminDashboard.allUploads st')
          (scans (after (deleteScan k) db))
     /\ by_id k (AdminDashboard.allUploads st') = None
     /\ get br_id k (scans (after (deleteScan k) db)) = None
     /\ AdminDashboard.users st' = AdminDashboard.users st)
  /\ AdminDashboard.handleDeleteScan false k st db = (Resolved st, db).
Proof.
  intros Hp. split; [|reflexivity].
  unfold AdminDashboard.handleDeleteScan, try_catch, after, deleteScan,
    await, init, ret, delete. simpl.
  eexists. split; [reflexivity|]. simpl. split.
  - now apply Permutation_filter_both.
  - split; [apply (get_delete_same br_id k)|].
    split; [apply (get_delete_same br_id k)|reflexivity].
Qed.

Lemma purge_keeps_list_in_step_witness :
  exists st',
    AdminDashboard.handleDeleteScan true "s1"
      (AdminDashboard.mkState (users undated_db)
         [sample_scan "s2" "u1" "yesterday";
          sample_scan "s1" "u1" "2024-03-01T12:30:15.250Z"] false)
      undated_db
    = (Resolved st', after (deleteScan "s1") undated_db)
    /\ Permutation (AdminDashboard.allUploads st')
         (scans (after (deleteScan "s1") undated_db)).
Proof.
  destruct (proj1 (purge_keeps_list_in_step
                     (AdminDashboard.mkState (users undated_db)
                        [sample_scan "s2" "u1" "yesterday";
                         sample_scan "s1" "u1" "2024-03-01T12:30:15.250Z"]
                        false)
                     undated_db "s1" (perm_swap _ _ _)))
    as (st' & Hrun & Hp & _).
  exists st'. split; [exact Hrun|exact Hp].
Defined.

Lemma return_removes_scan_witness :
  exists st',
    Dashboard.handleReturn true "s1"
      (Dashboard.mkState None
         (Some (sample_scan "s1" "u1" "2024-03-01T12:30:15.250Z"))
         None None
         [spread_isPurchased
            (sample_scan "s1" "u1" "2024-03-01T12:30:15.250Z") true]
         false)
      undated_db
    = (Resolved st', after (deleteScan "s1") undated_db)
    /\ Dashboard.currentResult st'
       = Some (spread_isPurchased
                 (sample_scan "s1" "u1" "2024-03-01T12:30:15.250Z") false)
    /\ Dashboard.shoppingCart st' = [].
Proof.
  destruct (proj1 (return_removes_scan
                     (Dashboard.mkState None
                        (Some (sample_scan "s1" "u1"
                                 "2024-03-01T12:30:15.250Z"))
                        None None
                        [spread_isPurchased
                           (sample_scan "s1" "u1"
                              "2024-03-01T12:30:15.250Z") true]
                        false)
                     undated_db "s1"))
    as (st' & Hrun & _ & _ & Hcur & _).
  exists st'. split; [exact Hrun|]. split.
  - apply (Hcur (sample_scan "s1" "u1" "2024-03-01T12:30:15.250Z"));
      reflexivity.
  - injection Hrun as <-. reflexivity.
Defined.

(* ------------------------------------------------------------------ *)
(** * The two listings against each other; saving a scan *)

Lemma sort_insert_ahead {E : Js.Engine}
    (x : BreedResult) (tx : Z) (l : list BreedResult) :
  time_of x = Some tx ->
  Forall (fun y => exists ty, time_of y = Some ty /\ (ty <= tx)%Z) l ->
  Js.sort_insert newest_first x l = x :: l.
Proof.
  intros Ex Hl. destruct l as [|y l]; [reflexivity|].
  inversion Hl as [|? ? (ty & Ey & Hle) _]; subst. simpl.
  unfold Js.SortCompare, newest_first.
  fold (time_of y). fold (time_of x). rewrite Ex, Ey. simpl.
  destruct (0 <? ty - tx)%Z eqn:C; [apply Z.ltb_lt in C; lia|reflexivity].
Qed.

Lemma filter_sort_insert {E : Js.Engine}
    (P : BreedResult -> bool) (x : BreedResult)
    (l : list BreedResult) :
  valid_time x -> Forall valid_time l -> newest_to_oldest l ->
  filter P (Js.sort_insert newest_first x l)
  = if P x then Js.sort_insert newest_first x (filter P l) else filter P l.
Proof.
  intros Hx Hl Hs. destruct (valid_time_Some x Hx) as [tx Ex].
  induction l as [|y l IH]; simpl.
  - now destruct (P x).
  - inversion Hl as [|? ? Hy Hl']; subst.
    inversion Hs as [|? ? Hs' Hall]; subst.
    destruct (valid_time_Some y Hy) as [ty Ey].
    assert (C : Js.SortCompare newest_first x y = (ty - tx)%Z).
    { unfold Js.SortCompare, newest_first.
      fold (time_of y). fold (time_of x). now rewrite Ex, Ey. }
    rewrite C. destruct (0 <? ty - tx)%Z eqn:D.
    + simpl. rewrite (IH Hl' Hs').
      destruct (P y), (P x); try reflexivity.
      simpl. now rewrite C, D.
    + simpl. destruct (P x) eqn:Px; [|reflexivity].
      apply Z.ltb_ge in D. symmetry.
      apply (sort_insert_ahead x tx); [assumption|].
      assert (F : Forall (fun z => exists tz, time_of z = Some tz
                                               /\ (tz <= tx)%Z) (y :: l)).
      { constructor; [exists ty; split; [assumption|lia]|].
        eapply Forall_impl; [|exact Hall]. simpl. intros z Hz.
        rewrite Ey in Hz. destruct (time_of z) as [tz|]; [|discriminate].
        exists tz. split; [reflexivity|]. simpl in Hz.
        apply Z.leb_le in Hz. lia. }
      rewrite Forall_forall in F. apply Forall_forall.
      intros z Hz. apply F. change (In z (filter P (y :: l))) in Hz.
      now apply filter_In in Hz as [Hz _].
Qed.

Lemma filter_Array_sort {E : Js.Engine}
    (P : BreedResult -> bool) (l : list BreedResult) :
  Forall valid_time l ->
  filter P (Js.Array_sort newest_first l)
  = Js.Array_sort newest_first (filter P l).
Proof.
  induction l as [|x l IH]; simpl; intros H; [reflexivity|].
  inversion H; subst. rewrite filter_sort_insert; auto.
  - rewrite IH by assumption. now destruct (P x).
  - apply (Permutation_Forall
             (Permutation_sym (Array_sort_perm newest_first l))).
    assumption.
  - now apply Array_sort_sorted.
Qed.

(** X26.  When every stored timestamp parses as a date, the listing of
    an owner is the listing of all scans restricted to that owner: the
    owner's scans, in the order the administrator sees them. *)
Theorem owner_listing_within_all {E : Js.Engine}
    (db : IDBDatabase) (u : string) :
  Forall valid_time (scans db) ->
  owner_listing u db = filter (owned_by u) (all_listing db).
Proof.
  intros H. unfold owner_listing, all_listing, outcome, getUserScans,
    getAllScans, await, init, ret, index_getAll, getAll. simpl.
  symmetry. now apply filter_Array_sort.
Qed.

Lemma owner_listing_within_all_witness :
  (owner_listing (E := Js.standard_only)) "u1"
    (mkDB [] [sample_scan "s1" "u1" "2024-03-01T12:30:15.250Z";
              sample_scan "s2" "u2" "2024-03-01T18:00:00.000Z";
              sample_scan "s3" "u1" "2024-03-02T09:00:00.000Z"])
  = filter (owned_by "u1")
      ((all_listing (E := Js.standard_only))
         (mkDB [] [sample_scan "s1" "u1" "2024-03-01T12:30:15.250Z";
                   sample_scan "s2" "u2" "2024-03-01T18:00:00.000Z";
                   sample_scan "s3" "u1" "2024-03-02T09:00:00.000Z"])).
Proof.
  apply (owner_listing_within_all (E := Js.standard_only)
           (mkDB [] [sample_scan "s1" "u1" "2024-03-01T12:30:15.250Z";
                     sample_scan "s2" "u2" "2024-03-01T18:00:00.000Z";
                     sample_scan "s3" "u1" "2024-03-02T09:00:00.000Z"])
           "u1").
  repeat constructor; discriminate.
Defined.

Lemma put_length {A} (key : A -> string) (r : A) (l : list A) :
  ascendingb key l = true ->
  List.length (put key r l)
  = match get key (key r) l with
    | Some _ => List.length l
    | None => S (List.length l)
    end.
Proof.
  unfold get. induction l as [|y l IH]; simpl; [reflexivity|].
  intros H. apply andb_true_iff in H as [Hy Hl].
  destruct (String.compare (key r) (key y)) eqn:E; simpl.
  - apply String.compare_eq_iff in E. now rewrite E, String.eqb_refl.
  - rewrite compare_neq_eqb by congruence.
    replace (find (fun x => String.eqb (key x) (key r)) l) with (@None A);
      [reflexivity|].
    symmetry. destruct (find _ l) as [z|] eqn:F; [|reflexivity].
    apply find_some in F as [Hz Ez]. apply String.eqb_eq in Ez.
    rewrite forallb_forall in Hy. apply ltb_Lt in E.
    pose proof (ltb_trans _ _ _ E (Hy z Hz)) as T.
    rewrite Ez, ltb_irrefl in T. discriminate.
  - rewrite compare_neq_eqb by congruence. rewrite (IH Hl).
    now destruct (find _ l).
Qed.

(** X27.  [saveScan] inserts or replaces by id: on a well-formed store
    the number of scans grows by one when the id is new and stays the same
    when it is held already; every other id reads as before and the
    identities are untouched. *)
Theorem saveScan_inserts_or_replaces (db : IDBDatabase) (s : BreedResult)
    (k : string) :
  store_ok db = true ->
  List.length (scans (after (saveScan s) db))
  = match get br_id (br_id s) (scans db) with
    | Some _ => List.length (scans db)
    | None => S (List.length (scans db))
    end
  /\ (k <> br_id s ->
      get br_id k (scans (after (saveScan s) db)) = get br_id k (scans db))
  /\ users (after (saveScan s) db) = users db.
Proof.
  intros Hok. unfold store_ok in Hok.
  apply andb_true_iff in Hok as [_ Hasc].
  unfold after, saveScan, await, init, ret. simpl.
  split; [now apply put_length|]. split; [|reflexivity].
  intros Hk. now apply get_put_other.
Qed.

Lemma saveScan_inserts_or_replaces_witness :
  List.length
    (scans (after (saveScan
                     (spread_isPurchased
                        (sample_scan "s1" "u1" "2024-03-01T12:30:15.250Z")
                        true))
              undated_db))
  = 2%nat.
Proof.
  apply (saveScan_inserts_or_replaces undated_db
           (spread_isPurchased
              (sample_scan "s1" "u1" "2024-03-01T12:30:15.250Z") true)
           "s2").
  reflexivity.
Defined.
